(** * ImageCompressor.ai: the upload / compress / history / share page

    A shallow embedding of [App.jsx] (the React component
    [ImageCompressorApp] and the stand-in [Compressor] class) and the
    properties its specification states about it.

    - JavaScript Numbers that hold fractions are binary64 values
      ([PrimFloat.float]); Numbers that the platform guarantees to be
      integers ([File.size], the slider value, [Date.now()]) are [Z] and are
      converted with [of_integer] where the source does arithmetic on them.
    - The component's state (the [useState] cells) is a record; an event
      handler is a computation in a small state-and-effect monad, closed over
      the values of the render that created it, exactly as the closures of
      the component function are.
    - What the browser does on the page's behalf (timers, object URLs, the
      compression library, the share sheet) is recorded as a trace of
      effects.
    - Where a property compares a binary64 result with the exact value of
      a formula, the Number is read as a real ([number_value]) or as the
      integer it holds ([integer_value]), through the specification of
      binary64 in [SpecFloat]. *)

From Stdlib Require Import ZArith List Bool Ascii String Lia.
From Stdlib Require Import Floats Uint63 DecimalString.
From Stdlib Require Import Reals Lra.
Import ListNotations.

Set Warnings "-inexact-float".
Open Scope Z_scope.

(* ================================================================== *)
(** * The JavaScript runtime the page relies on *)
(* ================================================================== *)

Module JS.

(** ** Numbers *)

(** The Number with the value of an integer (exact up to 2^53 in
    magnitude, which covers every byte count and slider value). *)
Definition of_integer (z : Z) : float :=
  match z with
  | Z0 => PrimFloat.zero
  | Zpos _ => PrimFloat.of_uint63 (Uint63.of_Z z)
  | Zneg p => PrimFloat.opp (PrimFloat.of_uint63 (Uint63.of_Z (Zpos p)))
  end.

(** The integer part, rounded towards minus infinity, of the real number
    [(-1)^s * m * 2^e]. *)
Definition floor_of (s : bool) (m : positive) (e : Z) : Z :=
  let v := if s then Zneg m else Zpos m in
  match e with
  | Zneg k => v / 2 ^ Zpos k
  | _ => v * 2 ^ e
  end.

(** [Math.floor]: NaN, the infinities, the zeros and every value with a
    non-negative exponent (an integer already) are returned as they are. *)
Definition Math_floor (x : float) : float :=
  match Prim2SF x with
  | S754_finite s m e =>
      match e with
      | Zneg _ => of_integer (floor_of s m e)
      | _ => x
      end
  | _ => x
  end.

(** [Math.max] of two arguments: NaN if either is NaN, and +0 is larger
    than -0. *)
Definition Math_max (a b : float) : float :=
  if PrimFloat.is_nan a || PrimFloat.is_nan b then PrimFloat.nan
  else if PrimFloat.ltb a b then b
  else if PrimFloat.ltb b a then a
  else if PrimFloat.is_zero a && PrimFloat.get_sign a then b
  else a.

(** The real number a binary64 value stands for (0 for what is not a
    number). *)
Definition SF2R (x : spec_float) : R :=
  match x with
  | S754_finite s m e =>
      ((if s then -1 else 1) * IZR (Zpos m) * powerRZ 2 e)%R
  | _ => 0%R
  end.

Definition number_value (x : float) : R := SF2R (Prim2SF x).

(** The integer a Number holds, if it holds one. *)
Definition integer_value (x : float) : option Z :=
  match Prim2SF x with
  | S754_zero _ => Some 0
  | S754_finite s m e =>
      let v := if s then Zneg m else Zpos m in
      match e with
      | Zneg k => if (Zpos m mod 2 ^ Zpos k =? 0) then Some (v / 2 ^ Zpos k) else None
      | _ => Some (v * 2 ^ e)
      end
  | _ => None
  end.

(** A Number that is +0, or positive with its exponent in a given range. *)
Definition zero_or_positive (x : float) (lo hi : Z) : Prop :=
  Prim2SF x = S754_zero false
  \/ exists m e, Prim2SF x = S754_finite false m e /\ lo <= e <= hi.

(** ** Strings *)

Open Scope string_scope.

(** [s.split(sep)] for a one-character separator: the segments between
    the separators, never an empty array. *)
Fixpoint split (sep : ascii) (s : string) : list string :=
  match s with
  | EmptyString => [EmptyString]
  | String c rest =>
      if Ascii.eqb c sep then EmptyString :: split sep rest
      else match split sep rest with
           | seg :: segs => String c seg :: segs
           | [] => [String c EmptyString]
           end
  end.

(** [a.pop()]: the last element ([undefined], here [None], on an empty
    array) together with the array that is left. *)
Definition pop {A : Type} (a : list A) : option A * list A :=
  match rev a with
  | [] => (None, [])
  | x :: front => (Some x, rev front)
  end.

(** [a.join(sep)]. *)
Definition join (sep : string) (a : list string) : string :=
  String.concat sep a.

(** A value interpolated in a template literal: [undefined] prints as
    the word. *)
Definition interpolate (v : option string) : string :=
  match v with
  | Some s => s
  | None => "undefined"
  end.

(** Truthiness of a string-or-undefined value. *)
Definition truthy (v : option string) : bool :=
  match v with
  | Some EmptyString | None => false
  | Some _ => true
  end.

(** ** [Number.prototype.toFixed] *)

(** The digits of a natural number, ["0"] for zero. *)
Definition digits (n : Z) : string :=
  NilZero.string_of_uint (N.to_uint (Z.to_N n)).

Fixpoint zeros (k : nat) : string :=
  match k with
  | O => EmptyString
  | S k' => String "0" (zeros k')
  end.

(** Steps 11.b-11.c of the algorithm: the digits of [n] with a point
    [f] places from the right, padded with zeros on the left so that at
    least one digit precedes the point. *)
Definition place_point (n : Z) (f : nat) : string :=
  let m := digits n in
  match f with
  | O => m
  | _ =>
      let k := String.length m in
      let m := if (k <=? f)%nat then zeros (f + 1 - k)%nat ++ m else m in
      let k := String.length m in
      substring 0 (k - f)%nat m ++ "." ++ substring (k - f)%nat f m
  end.

(** The integer [n] for which [n / 10^f - m * 2^e] is closest to zero,
    the larger one of two. *)
Definition nearest_scaled (m : positive) (e : Z) (f : nat) : Z :=
  let p := 10 ^ Z.of_nat f in
  match e with
  | Zneg k => (2 * Zpos m * p + 2 ^ Zpos k) / (2 * 2 ^ Zpos k)
  | _ => Zpos m * 2 ^ e * p
  end.

Section ToFixed.

(** [Number::toString] is used by [toFixed] only for magnitudes of at
    least 10^21, where it prints an exponent; it is a built-in that the
    page never reaches with a percentage, and is taken as given. *)
Variable Number_toString : float -> string.

Definition toFixed (x : float) (fractionDigits : nat) : string :=
  match Prim2SF x with
  | S754_nan => "NaN"
  | S754_infinity false => "Infinity"
  | S754_infinity true => "-Infinity"
  | S754_zero _ => place_point 0 fractionDigits
  | S754_finite s m e =>
      let sign := if s then "-" else "" in
      if (10 ^ 21 <=? floor_of false m e)%Z
      then sign ++ Number_toString (PrimFloat.abs x)
      else sign ++ place_point (nearest_scaled m e fractionDigits) fractionDigits
  end.

End ToFixed.

End JS.

Import JS.
Open Scope string_scope.

(* ================================================================== *)
(** * Data model *)
(* ================================================================== *)

(** A [File] as the page reads it: [name], [size] (bytes) and [type]. *)
Record File := mkFile {
  file_name : string;
  file_size : Z;
  file_type : string
}.

(** What a [Blob] holds. The stand-in fills a [Uint8Array] of the given
    length with [Math.random] bytes; anything else is the library's. *)
Inductive Content :=
| RandomBytes (length : float)
| LibraryBytes (length : Z).

(** A [Blob] or a [File] handed to the success callback or kept in the
    history. [size] is a Number: the stand-in overwrites the property with
    the Number it computed. [name] is absent on a plain [Blob]. *)
Record Blob := mkBlob {
  blob_content : Content;
  blob_size : float;
  blob_type : string;
  blob_name : option string
}.

(** An [Error]: [name] and [message]. *)
Record JSError := mkError {
  err_name : string;
  err_message : string
}.

(** The [toast] state: [{ message, type }]. *)
Record Toast := mkToast {
  message : string;
  type : string
}.

(** An item of [compressedHistory]. *)
Record HistoryEntry := mkEntry {
  id : Z;
  originalFileName : string;
  originalSize : Z;
  compressedFileName : string;
  compressedSize : float;
  compressedBlob : Blob
}.

(** The [useState] cells of [ImageCompressorApp]. *)
Record State := mkState {
  st_selectedFile : option File;
  st_previewUrl : string;
  st_compressionLevel : Z;
  st_isCompressing : bool;
  st_isRealCompressorLoaded : bool;
  st_toast : option Toast;
  st_compressedHistory : list HistoryEntry;
  st_showPrivacyPolicy : bool;
  st_showAdBlockMessage : bool
}.

(** The state of the first render. *)
Definition initialState : State :=
  {| st_selectedFile := None;
     st_previewUrl := "";
     st_compressionLevel := 70;
     st_isCompressing := false;
     st_isRealCompressorLoaded := false;
     st_toast := None;
     st_compressedHistory := [];
     st_showPrivacyPolicy := false;
     st_showAdBlockMessage := false |}.

(** The options object given to a compressor. The three callbacks are
    closures of [handleCompress]; what they close over is [cb_selectedFile]
    and [cb_previewUrl] (see [success] and [error] below). *)
Record Options := mkOptions {
  quality : option float;
  has_progress : bool;
  has_success : bool;
  cb_selectedFile : File;
  cb_previewUrl : string
}.

(** The argument of [navigator.share] and [navigator.canShare]. *)
Record ShareData := mkShareData {
  share_files : list Blob;
  share_title : option string;
  share_text : option string
}.

(** What the browser is asked to do while a handler runs, or is left
    with when an [async] handler throws. *)
Inductive Effect :=
| SetTimeout_clearToast (ms : Z)
| RevokeObjectURL (url : string)
| CreateObjectURL (f : File) (url : string)
| ResetInputValue
| NewCompressor (real : bool) (f : File) (o : Options)
| NavigatorShare (d : ShareData)
| ConsoleError (label : string) (e : JSError)
| UnhandledRejection (e : JSError).

(* ================================================================== *)
(** * Handlers as state-and-effect computations *)
(* ================================================================== *)

(** A computation reads and replaces the state cells and appends to the
    trace of effects. *)
Definition M (A : Type) : Type := State -> A * State * list Effect.

Definition ret {A} (a : A) : M A := fun s => (a, s, []).

Definition bind {A B} (c : M A) (k : A -> M B) : M B :=
  fun s =>
    let '(a, s1, t1) := c s in
    let '(b, s2, t2) := k a s1 in
    (b, s2, (t1 ++ t2)%list).

Declare Scope js_scope.
Delimit Scope js_scope with js.
Notation "c1 ;; c2" := (bind c1 (fun _ => c2))
  (at level 61, right associativity) : js_scope.
Notation "'when' b 'then' c" := (if b then c else ret tt)
  (at level 60, c at level 60) : js_scope.

Definition effect (e : Effect) : M unit := fun s => (tt, s, [e]).

(** The state and the trace a handler leaves behind. *)
Definition exec (c : M unit) (s : State) : State := snd (fst (c s)).
Definition trace (c : M unit) (s : State) : list Effect := snd (c s).

(** The setters returned by [useState]. *)
Definition setSelectedFile (v : option File) : M unit := fun s =>
  (tt, {| st_selectedFile := v;
          st_previewUrl := st_previewUrl s;
          st_compressionLevel := st_compressionLevel s;
          st_isCompressing := st_isCompressing s;
          st_isRealCompressorLoaded := st_isRealCompressorLoaded s;
          st_toast := st_toast s;
          st_compressedHistory := st_compressedHistory s;
          st_showPrivacyPolicy := st_showPrivacyPolicy s;
          st_showAdBlockMessage := st_showAdBlockMessage s |}, []).

Definition setPreviewUrl (v : string) : M unit := fun s =>
  (tt, {| st_selectedFile := st_selectedFile s;
          st_previewUrl := v;
          st_compressionLevel := st_compressionLevel s;
          st_isCompressing := st_isCompressing s;
          st_isRealCompressorLoaded := st_isRealCompressorLoaded s;
          st_toast := st_toast s;
          st_compressedHistory := st_compressedHistory s;
          st_showPrivacyPolicy := st_showPrivacyPolicy s;
          st_showAdBlockMessage := st_showAdBlockMessage s |}, []).

Definition setCompressionLevel (v : Z) : M unit := fun s =>
  (tt, {| st_selectedFile := st_selectedFile s;
          st_previewUrl := st_previewUrl s;
          st_compressionLevel := v;
          st_isCompressing := st_isCompressing s;
          st_isRealCompressorLoaded := st_isRealCompressorLoaded s;
          st_toast := st_toast s;
          st_compressedHistory := st_compressedHistory s;
          st_showPrivacyPolicy := st_showPrivacyPolicy s;
          st_showAdBlockMessage := st_showAdBlockMessage s |}, []).

Definition setIsCompressing (v : bool) : M unit := fun s =>
  (tt, {| st_selectedFile := st_selectedFile s;
          st_previewUrl := st_previewUrl s;
          st_compressionLevel := st_compressionLevel s;
          st_isCompressing := v;
          st_isRealCompressorLoaded := st_isRealCompressorLoaded s;
          st_toast := st_toast s;
          st_compressedHistory := st_compressedHistory s;
          st_showPrivacyPolicy := st_showPrivacyPolicy s;
          st_showAdBlockMessage := st_showAdBlockMessage s |}, []).

Definition setIsRealCompressorLoaded (v : bool) : M unit := fun s =>
  (tt, {| st_selectedFile := st_selectedFile s;
          st_previewUrl := st_previewUrl s;
          st_compressionLevel := st_compressionLevel s;
          st_isCompressing := st_isCompressing s;
          st_isRealCompressorLoaded := v;
          st_toast := st_toast s;
          st_compressedHistory := st_compressedHistory s;
          st_showPrivacyPolicy := st_showPrivacyPolicy s;
          st_showAdBlockMessage := st_showAdBlockMessage s |}, []).

Definition setToast (v : option Toast) : M unit := fun s =>
  (tt, {| st_selectedFile := st_selectedFile s;
          st_previewUrl := st_previewUrl s;
          st_compressionLevel := st_compressionLevel s;
          st_isCompressing := st_isCompressing s;
          st_isRealCompressorLoaded := st_isRealCompressorLoaded s;
          st_toast := v;
          st_compressedHistory := st_compressedHistory s;
          st_showPrivacyPolicy := st_showPrivacyPolicy s;
          st_showAdBlockMessage := st_showAdBlockMessage s |}, []).

(** [setCompressedHistory] takes an updater of the previous value; a plain
    value [v] is the updater [fun _ => v]. *)
Definition setCompressedHistory
    (f : list HistoryEntry -> list HistoryEntry) : M unit := fun s =>
  (tt, {| st_selectedFile := st_selectedFile s;
          st_previewUrl := st_previewUrl s;
          st_compressionLevel := st_compressionLevel s;
          st_isCompressing := st_isCompressing s;
          st_isRealCompressorLoaded := st_isRealCompressorLoaded s;
          st_toast := st_toast s;
          st_compressedHistory := f (st_compressedHistory s);
          st_showPrivacyPolicy := st_showPrivacyPolicy s;
          st_showAdBlockMessage := st_showAdBlockMessage s |}, []).

Definition setShowPrivacyPolicy (v : bool) : M unit := fun s =>
  (tt, {| st_selectedFile := st_selectedFile s;
          st_previewUrl := st_previewUrl s;
          st_compressionLevel := st_compressionLevel s;
          st_isCompressing := st_isCompressing s;
          st_isRealCompressorLoaded := st_isRealCompressorLoaded s;
          st_toast := st_toast s;
          st_compressedHistory := st_compressedHistory s;
          st_showPrivacyPolicy := v;
          st_showAdBlockMessage := st_showAdBlockMessage s |}, []).

Definition setShowAdBlockMessage (v : bool) : M unit := fun s =>
  (tt, {| st_selectedFile := st_selectedFile s;
          st_previewUrl := st_previewUrl s;
          st_compressionLevel := st_compressionLevel s;
          st_isCompressing := st_isCompressing s;
          st_isRealCompressorLoaded := st_isRealCompressorLoaded s;
          st_toast := st_toast s;
          st_compressedHistory := st_compressedHistory s;
          st_showPrivacyPolicy := st_showPrivacyPolicy s;
          st_showAdBlockMessage := v |}, []).

(** [showToast(message, type = 'info')]: the toast replaces the current
    one, and a timer is set that clears the toast cell 3 seconds later. *)
Definition showToast (msg : string) (t : string) : M unit :=
  (setToast (Some (mkToast msg t)) ;;
   effect (SetTimeout_clearToast 3000))%js.

(* ================================================================== *)
(** * The stand-in [Compressor] class *)
(* ================================================================== *)

(** ** Identifier resolution at the progress call site *)

Inductive JSValue :=
| VUndefined
| VNumber (x : float)
| VObject (what : string).

(** The bindings one function activation (or the module, or the global
    object) contributes. *)
Definition Scope := list (string * JSValue).

Fixpoint lookup (name : string) (sc : Scope) : option JSValue :=
  match sc with
  | [] => None
  | (n, v) :: rest => if String.eqb n name then Some v else lookup name rest
  end.

(** Resolution walks the chain from the innermost scope outwards. *)
Fixpoint resolve (name : string) (chain : list Scope) : option JSValue :=
  match chain with
  | [] => None
  | sc :: outer =>
      match lookup name sc with
      | Some v => Some v
      | None => resolve name outer
      end
  end.

(** The declarations of the module: the imports, the class and the three
    components. *)
Definition moduleScope : Scope :=
  [ ("React", VObject "module"); ("useState", VObject "function");
    ("useRef", VObject "function"); ("useEffect", VObject "function");
    ("useCallback", VObject "function"); ("Compressor", VObject "class");
    ("Toast", VObject "function"); ("PrivacyPolicyModal", VObject "function");
    ("ImageCompressorApp", VObject "function") ].

(** The scopes around [options.progress(percentage)], innermost first: the
    interval's arrow function (no parameter, no declaration), the first
    [setTimeout] callback ([progress], [progressInterval]), the constructor
    ([file], [options]) and the module. *)
Definition lexicalChain (progress : Z) (progressInterval : Z) : list Scope :=
  [ [];
    [ ("progress", VNumber (of_integer progress));
      ("progressInterval", VNumber (of_integer progressInterval)) ];
    [ ("file", VObject "File"); ("options", VObject "Object") ];
    moduleScope ].

(** What one firing of the interval does. *)
Inductive TickResult :=
| ProgressCalled (argument : JSValue)
| Thrown (e : JSError)
| IntervalCleared.

(** The body of the [setInterval] callback, given the properties of the
    global object: the counter after the firing, and what happened. An
    identifier found in no scope is a [ReferenceError]. *)
Definition intervalTick (options : Options) (global : Scope)
    (progressInterval : Z) (progress : Z) : Z * TickResult :=
  let progress := progress + 10 in
  if has_progress options && (progress <=? 100)%Z then
    match resolve "percentage" (lexicalChain progress progressInterval ++ [global])%list with
    | Some percentage => (progress, ProgressCalled percentage)
    | None => (progress, Thrown (mkError "ReferenceError" "percentage is not defined"))
    end
  else (progress, IntervalCleared).

(** The first [n] firings, starting from [let progress = 0]; a firing that
    throws leaves the interval running, one that clears it ends the run. *)
Fixpoint intervalRun (options : Options) (global : Scope)
    (progressInterval : Z) (n : nat) (progress : Z) : list (Z * TickResult) :=
  match n with
  | O => []
  | S n' =>
      let '(progress', r) := intervalTick options global progressInterval progress in
      (progress', r) ::
      match r with
      | IntervalCleared => []
      | _ => intervalRun options global progressInterval n' progress'
      end
  end.

(** ** The simulated result *)

(** [Math.max(1024, Math.floor(originalSize * quality * 0.5))]. *)
Definition simulatedCompressedSize (originalSize : Z) (quality : float) : float :=
  Math_max 1024 (Math_floor (of_integer originalSize * quality * 0.5)%float).

(** The quality [handleCompress] passes for a slider level is a positive
    Number on a 53-bit mantissa, at most [level / 100 * (1 + 2^-53)]:
    the check, run over the slider's range in [quality_table]. *)
Definition quality_ok (level : Z) : bool :=
  match Prim2SF (of_integer level / 100)%float with
  | S754_finite false m e =>
      ((-60 <=? e) && (e <=? -52) && (Zpos m <? 2 ^ 53)
       && (Zpos m * 100 * 2 ^ 53 <=? level * 2 ^ (- e) * (2 ^ 53 + 1)))%Z
  | _ => false
  end.

(** [new Uint8Array(length)] for a length that is an integer, an infinity
    or NaN: NaN counts as 0, and a length outside [0, 2^53 - 1] is a
    [RangeError] ([None]). *)
Definition new_Uint8Array (length : float) : option float :=
  if PrimFloat.is_nan length then Some PrimFloat.zero
  else if (length <? 0)%float || (9007199254740991 <? length)%float then None
  else Some length.

(** The name of the simulated file: [`${baseName}_ai.${extension}`]. *)
Definition newFileName (file : File) : string :=
  let originalFileNameParts := split "." (file_name file) in
  let '(extension, originalFileNameParts) := pop originalFileNameParts in
  let baseName := join "." originalFileNameParts in
  baseName ++ "_ai." ++ interpolate extension.

(** How the second [setTimeout] callback ends. *)
Inductive Completion :=
| Succeeded (result : Blob)
| Uncaught (e : JSError)
| NoCallback.

(** The callback that runs 500 ms after the first: it fabricates the
    result and hands it to [options.success]. The constructor's
    [instanceof File] test always passes here, the argument being a
    [File]. *)
Definition Compressor (file : File) (options : Options) : Completion :=
  let originalSize := file_size file in
  let quality := match quality options with
                 | Some q => q
                 | None => 0.8%float
                 end in
  let simulatedCompressedSize := simulatedCompressedSize originalSize quality in
  match new_Uint8Array simulatedCompressedSize with
  | None => Uncaught (mkError "RangeError" "Invalid typed array length")
  | Some length =>
      let compressedBlob :=
        {| blob_content := RandomBytes length;
           blob_size := simulatedCompressedSize;
           blob_type := file_type file;
           blob_name := Some (newFileName file) |} in
      if has_success options then Succeeded compressedBlob else NoCallback
  end.

(* ================================================================== *)
(** * The component [ImageCompressorApp] *)
(* ================================================================== *)

(** The number of bytes a [Blob] built from this content has. *)
Definition byteLength (c : Content) : float :=
  match c with
  | RandomBytes n => n
  | LibraryBytes n => of_integer n
  end.

(** The event [onChange] receives: [e.target.files]. *)
Record ChangeEvent := mkChange {
  files : list File
}.

(** [navigator], as far as [handleShare] looks at it. [share] may be
    missing; when called it resolves ([None]) or rejects with an error.
    [canShare] may be missing too, also where [share] exists: it came
    with the second level of the Web Share API. *)
Record Navigator := mkNavigator {
  share : option (ShareData -> option JSError);
  canShare : option (ShareData -> bool)
}.

Definition validTypes : list string :=
  ["image/jpeg"; "image/png"; "image/gif"; "image/webp"; "image/jpg"].

(** [a.includes(x)] on strings. *)
Definition includes (a : list string) (x : string) : bool :=
  existsb (String.eqb x) a.

(** [if (previewUrl)]: a string is truthy when it is not empty. *)
Definition nonempty (s : string) : bool :=
  match s with
  | EmptyString => false
  | _ => true
  end.

Section ImageCompressorApp.

Open Scope js_scope.

(** The values of the render that created the handlers: each handler is
    a closure of the component function and reads these, not the cells. *)
Variable selectedFile : option File.
Variable previewUrl : string.
Variable compressionLevel : Z.
Variable isRealCompressorLoaded : bool.

(** What [URL.createObjectURL] returns when the handler calls it, what
    [Date.now()] returns, and the built-in behind [toFixed]. *)
Variable URL_createObjectURL : File -> string.
Variable Date_now : Z.
Variable Number_toString : float -> string.

Definition handleFileChange (e : ChangeEvent) : M unit :=
  showToast "Processing file..." "info" ;;
  setSelectedFile None ;;
  setCompressedHistory (fun _ => []) ;;
  (when nonempty previewUrl then effect (RevokeObjectURL previewUrl)) ;;
  setPreviewUrl "" ;;
  setCompressionLevel 70 ;;
  setToast None ;;
  match hd_error (files e) with
  | None => showToast "No file selected." "error"
  | Some file =>
      if negb (includes validTypes (file_type file)) then
        showToast "Unsupported file type. Please upload JPG, JPEG, PNG, GIF, or WEBP images." "error" ;;
        effect ResetInputValue
      else if (20 * 1024 * 1024 <? file_size file)%Z then
        showToast "File size should be less than 20MB." "error" ;;
        effect ResetInputValue
      else
        setSelectedFile (Some file) ;;
        effect (CreateObjectURL file (URL_createObjectURL file)) ;;
        setPreviewUrl (URL_createObjectURL file) ;;
        showToast "Image uploaded successfully!" "success" ;;
        effect ResetInputValue
  end.

(** [handleDrop], given [e.dataTransfer.files]. *)
Definition handleDrop (dropped : list File) : M unit :=
  match hd_error dropped with
  | Some f => handleFileChange (mkChange [f])
  | None => ret tt
  end.

(** The fallback name in the success callback, from the selected file
    the callback closes over. *)
Definition fallbackFileName (file : File) : string :=
  let originalFileNameParts := split "." (file_name file) in
  let '(extension, originalFileNameParts) := pop originalFileNameParts in
  let baseName := join "." originalFileNameParts in
  baseName ++ "_ai." ++ interpolate extension.

(** The [success(result)] callback of the options object. [file] is the
    [selectedFile] of the render in which compression was triggered. *)
Definition success (file : File) (result : Blob) : M unit :=
  let fileNameToUse :=
    if truthy (blob_name result) then interpolate (blob_name result)
    else fallbackFileName file in
  let fileToDownload :=
    {| blob_content := blob_content result;
       blob_size := byteLength (blob_content result);
       blob_type := blob_type result;
       blob_name := Some fileNameToUse |} in
  setCompressedHistory (fun prevHistory =>
    {| id := Date_now;
       originalFileName := file_name file;
       originalSize := file_size file;
       compressedFileName := fileNameToUse;
       compressedSize := blob_size result;
       compressedBlob := fileToDownload |} :: prevHistory) ;;
  setIsCompressing false ;;
  showToast ("Image compressed successfully! Saved "
             ++ toFixed Number_toString
                  (100 - (blob_size result / of_integer (file_size file)) * 100)%float 1
             ++ "%") "success" ;;
  setSelectedFile None ;;
  (when nonempty previewUrl then effect (RevokeObjectURL previewUrl)) ;;
  setPreviewUrl "" ;;
  setCompressionLevel 70.

(** The [progress(percentage)] callback: its body is empty. *)
Definition progress (percentage : JSValue) : M unit := ret tt.

(** The [error(err)] callback. *)
Definition error (err : JSError) : M unit :=
  showToast ("Compression failed: " ++ err_message err ++ ". Please try again.") "error" ;;
  setIsCompressing false.

Definition handleCompress : M unit :=
  match selectedFile with
  | None => showToast "Please upload an image to compress." "error"
  | Some file =>
      showToast "Compressing image..." "info" ;;
      setIsCompressing true ;;
      setToast None ;;
      effect (NewCompressor isRealCompressorLoaded file
                {| quality := Some (of_integer compressionLevel / 100)%float;
                   has_progress := true;
                   has_success := true;
                   cb_selectedFile := file;
                   cb_previewUrl := previewUrl |})
  end.

(** [handleShare(fileBlob, fileName)]. Only [navigator.share] is tested
    for before [navigator.canShare] is called, and the call is outside the
    [try]: where [canShare] is missing the call throws a [TypeError], and
    the function being [async], the promise it returns is rejected with
    nobody to handle it. *)
Definition handleShare (navigator : Navigator)
    (fileBlob : option Blob) (fileName : string) : M unit :=
  match fileBlob with
  | None => showToast "No compressed file to share." "error"
  | Some blob =>
      let shareFile :=
        {| blob_content := blob_content blob;
           blob_size := byteLength (blob_content blob);
           blob_type := blob_type blob;
           blob_name := Some fileName |} in
      let unsupported :=
        showToast "Your browser does not support sharing files directly. Please download and share manually." "info" in
      match share navigator with
      | None => unsupported
      | Some navigator_share =>
          match canShare navigator with
          | None =>
              effect (UnhandledRejection
                        (mkError "TypeError" "navigator.canShare is not a function"))
          | Some navigator_canShare =>
              if navigator_canShare (mkShareData [shareFile] None None) then
                let data :=
                  {| share_files := [shareFile];
                     share_title := Some ("Compressed Image - " ++ fileName);
                     share_text := Some "Check out this image I compressed using ImageCompressor.ai!" |} in
                effect (NavigatorShare data) ;;
                match navigator_share data with
                | None => showToast "Image shared successfully!" "success"
                | Some err =>
                    if String.eqb (err_name err) "AbortError" then
                      showToast "Sharing cancelled." "info"
                    else
                      effect (ConsoleError "Error sharing:" err) ;;
                      showToast ("Failed to share image: " ++ err_message err) "error"
                end
              else unsupported
          end
      end
  end.

Definition clearHistory : M unit :=
  setCompressedHistory (fun _ => []) ;;
  showToast "Compression history cleared!" "info".

(** The text of the "Reduction" line of a history card. *)
Definition reductionText (item : HistoryEntry) : string :=
  toFixed Number_toString
    ((1 - (compressedSize item / of_integer (originalSize item))) * 100)%float 1
  ++ "%".

End ImageCompressorApp.

(* ================================================================== *)
(** * The page as a transition system *)
(* ================================================================== *)

(** What can happen to the mounted component. A handler runs as the
    closure of the current render; the two compressor callbacks run as the
    closures stored in the options object they were created with. *)
Inductive Event :=
| FileChange (e : ChangeEvent) (URL_createObjectURL : File -> string)
| Drop (dropped : list File) (URL_createObjectURL : File -> string)
| SliderChange (value : Z)
| CompressClick
| CompressSuccess (o : Options) (Date_now : Z) (result : Blob)
| CompressError (o : Options) (err : JSError)
| ShareClick (navigator : Navigator) (fileBlob : option Blob) (fileName : string)
| ClearHistoryClick
| ToastTimeout
| CompressorChecked (found : bool)
| PrivacyPolicyToggled (open : bool).

Section Page.

Variable Number_toString : float -> string.

Definition handle (ev : Event) : M unit := fun s =>
  match ev with
  | FileChange e url => handleFileChange (st_previewUrl s) url e s
  | Drop dropped url => handleDrop (st_previewUrl s) url dropped s
  | SliderChange v => setCompressionLevel v s
  | CompressClick =>
      handleCompress (st_selectedFile s) (st_previewUrl s)
        (st_compressionLevel s) (st_isRealCompressorLoaded s) s
  | CompressSuccess o now result =>
      success (cb_previewUrl o) now Number_toString (cb_selectedFile o) result s
  | CompressError o err => error err s
  | ShareClick nav blob name => handleShare nav blob name s
  | ClearHistoryClick => clearHistory s
  | ToastTimeout => setToast None s
  | CompressorChecked found => setIsRealCompressorLoaded found s
  | PrivacyPolicyToggled open => setShowPrivacyPolicy open s
  end.

(** The state after a sequence of events, oldest first. *)
Fixpoint run (evs : list Event) (s : State) : State :=
  match evs with
  | [] => s
  | ev :: rest => run rest (exec (handle ev) s)
  end.

(** The history entry a success callback builds. *)
Definition entry_of (o : Options) (now : Z) (result : Blob) : HistoryEntry :=
  let file := cb_selectedFile o in
  let fileNameToUse :=
    if truthy (blob_name result) then interpolate (blob_name result)
    else fallbackFileName file in
  {| id := now;
     originalFileName := file_name file;
     originalSize := file_size file;
     compressedFileName := fileNameToUse;
     compressedSize := blob_size result;
     compressedBlob :=
       {| blob_content := blob_content result;
          blob_size := byteLength (blob_content result);
          blob_type := blob_type result;
          blob_name := Some fileNameToUse |} |}.

(** The entries of the successful compressions among the events, oldest
    first. *)
Fixpoint successes (evs : list Event) : list HistoryEntry :=
  match evs with
  | [] => []
  | CompressSuccess o now result :: rest => entry_of o now result :: successes rest
  | _ :: rest => successes rest
  end.

(** An event that resets the history: a clear, or an upload attempt that
    reaches [handleFileChange]. *)
Definition resets_history (ev : Event) : bool :=
  match ev with
  | FileChange _ _ => true
  | Drop dropped _ => match dropped with [] => false | _ => true end
  | ClearHistoryClick => true
  | _ => false
  end.

End Page.

(** ** The specification's reading of a derived file name *)

(** The position of the last ["."] of a name, if it has one. *)
Fixpoint lastIndexOf_dot (s : string) : option nat :=
  match s with
  | EmptyString => None
  | String c rest =>
      match lastIndexOf_dot rest with
      | Some i => Some (S i)
      | None => if Ascii.eqb c "." then Some O else None
      end
  end.

(** The base name and the extension in the usual sense: the extension is
    what follows the last dot, and a name without a dot has none. *)
Definition spec_baseName (name : string) : string :=
  match lastIndexOf_dot name with
  | Some i => substring 0 i name
  | None => name
  end.

Definition spec_extension (name : string) : string :=
  match lastIndexOf_dot name with
  | Some i => substring (S i) (String.length name - S i) name
  | None => EmptyString
  end.

(** "The original base name, followed by the marker, followed by a dot and
    the original extension." *)
Definition spec_derivedName (name : string) : string :=
  spec_baseName name ++ "_ai" ++ "." ++ spec_extension name.

(** Whether a character occurs in a string. *)
Fixpoint occurs (c : ascii) (s : string) : bool :=
  match s with
  | EmptyString => false
  | String d rest => Ascii.eqb d c || occurs c rest
  end.

(** ** Sample values used in the checked scenarios *)

Definition no_toString (x : float) : string := "".
Definition sample_url (f : File) : string := "blob:" ++ file_name f.

Definition cat_jpg : File := mkFile "cat.jpg" 2000000 "image/jpeg".
Definition tiny_png : File := mkFile "dot.png" 500 "image/png".
Definition photo : File := mkFile "photo" 5000 "image/png".
Definition big_png : File := mkFile "poster.png" (25 * 1024 * 1024) "image/png".
Definition banner_jpg : File := mkFile "banner.jpg" 80000 "image/jpeg".
Definition notes_txt : File := mkFile "notes.txt" 120 "text/plain".

(** The state in which [f] has been uploaded and the slider moved to
    [level], as the events of the page produce it. *)
Definition uploaded (f : File) (level : Z) : State :=
  run no_toString [FileChange (mkChange [f]) sample_url; SliderChange level] initialState.

(** The options object [handleCompress] builds in a state, if it starts a
    compression there. *)
Definition options_sent (s : State) : option Options :=
  match trace (handle no_toString CompressClick) s with
  | [_; NewCompressor _ _ o] => Some o
  | _ => None
  end.

(** The stand-in's run on [cat.jpg] at quality 70: the options object and
    the result handed to the success callback. *)
Definition cat_options : Options :=
  mkOptions (Some (of_integer 70 / 100)%float) true true cat_jpg "blob:cat.jpg".
Definition cat_result : Blob :=
  mkBlob (RandomBytes 700000) 700000 "image/jpeg" (Some "cat_ai.jpg").

(** One compression of [cat.jpg] carried through to the success callback. *)
Definition compressed_once : State :=
  run no_toString
    [CompressClick; CompressSuccess cat_options 1700000000000 cat_result]
    (uploaded cat_jpg 70).

(** The stand-in's run on the 500-byte file. *)
Definition tiny_options : Options :=
  mkOptions (Some (of_integer 70 / 100)%float) true true tiny_png "blob:dot.png".

(** The library turning the 80,000-byte [banner.jpg] into 29,000 bytes. *)
Definition banner_options : Options :=
  mkOptions (Some (of_integer 70 / 100)%float) true true banner_jpg "blob:banner.jpg".
Definition banner_result : Blob :=
  mkBlob (LibraryBytes 29000) 29000 "image/jpeg" (Some "banner.jpg").
Definition banner_compressing : State :=
  run no_toString
    [CompressorChecked true; FileChange (mkChange [banner_jpg]) sample_url;
     CompressClick]
    initialState.

(** The stand-in's run on an empty file. *)
Definition empty_png : File := mkFile "empty.png" 0 "image/png".
Definition empty_options : Options :=
  mkOptions (Some (of_integer 70 / 100)%float) true true empty_png "blob:empty.png".
Definition empty_result : Blob :=
  mkBlob (RandomBytes 1024) 1024 "image/png" (Some "empty_ai.png").

(** Two results arriving one after the other, with a toast expiring in
    between. *)
Definition two_successes : list Event :=
  [CompressSuccess cat_options 1700000000000 cat_result;
   ToastTimeout;
   CompressSuccess banner_options 1700000000650 banner_result].




(** The cells other than the toast. *)
Definition same_but_toast (s s' : State) : Prop :=
  st_selectedFile s' = st_selectedFile s
  /\ st_previewUrl s' = st_previewUrl s
  /\ st_compressionLevel s' = st_compressionLevel s
  /\ st_isCompressing s' = st_isCompressing s
  /\ st_isRealCompressorLoaded s' = st_isRealCompressorLoaded s
  /\ st_compressedHistory s' = st_compressedHistory s
  /\ st_showPrivacyPolicy s' = st_showPrivacyPolicy s
  /\ st_showAdBlockMessage s' = st_showAdBlockMessage s.

(** Whether a trace asks for a compressor, or for the share sheet. *)
Definition starts_compressor (e : Effect) : bool :=
  match e with NewCompressor _ _ _ => true | _ => false end.
Definition opens_share (e : Effect) : bool :=
  match e with NavigatorShare _ => true | _ => false end.

(** The cells no upload attempt touches. *)
Definition same_flags (s s' : State) : Prop :=
  st_isCompressing s' = st_isCompressing s
  /\ st_isRealCompressorLoaded s' = st_isRealCompressorLoaded s
  /\ st_showPrivacyPolicy s' = st_showPrivacyPolicy s
  /\ st_showAdBlockMessage s' = st_showAdBlockMessage s.

(* ================================================================== *)
(** * The mounted page *)
(* ================================================================== *)

(** ** [handleDownload] and the ad-blocker probe *)

(** What these do to the document, beside the effects of the handlers
    above. *)
Inductive PageEffect :=
| Handler (e : Effect)
| CreateBlobURL (blob : Blob) (url : string)
| AppendLink (href download : string)
| ClickLink (href download : string)
| RemoveLink
| AppendProbe
| SetTimeout_probe (ms : Z)
| RemoveProbe
| UncaughtException (e : JSError).

Definition P (A : Type) : Type := State -> A * State * list PageEffect.

Definition lift {A} (c : M A) : P A := fun s =>
  let '(a, s1, t) := c s in (a, s1, map Handler t).

Definition andThen {A B} (c : P A) (k : A -> P B) : P B :=
  fun s =>
    let '(a, s1, t1) := c s in
    let '(b, s2, t2) := k a s1 in
    (b, s2, (t1 ++ t2)%list).

Definition perform (e : PageEffect) : P unit := fun s => (tt, s, [e]).

Definition skip : P unit := fun s => (tt, s, []).

Declare Scope page_scope.
Delimit Scope page_scope with page.
Notation "c1 ;; c2" := (andThen c1 (fun _ => c2))
  (at level 61, right associativity) : page_scope.

(** [handleDownload(fileBlob, fileName)]; [URL_createObjectURL] is what the
    browser returns for the blob. *)
Definition handleDownload (URL_createObjectURL : Blob -> string)
    (fileBlob : option Blob) (fileName : string) : P unit :=
  match fileBlob with
  | None => lift (showToast "Error: No file data to download." "error")
  | Some blob =>
      if negb (nonempty fileName) then
        lift (showToast "Error: No file data to download." "error")
      else
        let url := URL_createObjectURL blob in
        (perform (CreateBlobURL blob url) ;;
         perform (AppendLink url fileName) ;;
         perform (ClickLink url fileName) ;;
         perform RemoveLink ;;
         lift (effect (RevokeObjectURL url)) ;;
         lift (showToast "Image downloaded!" "success"))%page
  end.

(** The probe element, as the timeout callback finds it 100 ms after it
    was appended: [childOfBody] is whether it still is a child of
    [document.body] then. *)
Record ProbeElement := mkProbe {
  offsetHeight : Z;
  offsetParent : option string;
  display : string;
  childOfBody : bool
}.

Definition adBlockDetected (testAd : ProbeElement) : bool :=
  (offsetHeight testAd =? 0)%Z
  || match offsetParent testAd with None => true | Some _ => false end
  || String.eqb (display testAd) "none".

Definition adBlockNotice : string :=
  "It looks like you have an ad blocker enabled. Please consider disabling it to support our free service.".

(** [detectAdBlock()], run once when the component mounts: [thrown] is
    the exception creating or appending the probe raised, if any. *)
Definition detectAdBlock (thrown : option JSError) : P unit :=
  match thrown with
  | None => (perform AppendProbe ;; perform (SetTimeout_probe 100))%page
  | Some e =>
      (lift (effect (ConsoleError "Ad blocker detection error:" e)) ;;
       lift (setShowAdBlockMessage true) ;;
       lift (showToast adBlockNotice "info"))%page
  end.

(** The callback of the probe's timeout. [document.body.removeChild]
    throws for an element that is not a child of the body, and the
    callback has no handler around it: what follows the call is then not
    run. *)
Definition probeTimeout (testAd : ProbeElement) : P unit :=
  if childOfBody testAd then
    (perform RemoveProbe ;;
     lift (setShowAdBlockMessage (adBlockDetected testAd)) ;;
     if adBlockDetected testAd then lift (showToast adBlockNotice "info")
     else skip)%page
  else
    perform (UncaughtException
               (mkError "NotFoundError" "The node to be removed is not a child of this node.")).

(** ** The page and what is pending around it *)

(** A compressor that was constructed and has not called back yet:
    whether it is the library's, its file and its options object. *)
Definition Pending : Type := bool * File * Options.

(** The cells of the component, the compressors that have not called back,
    the number of toast timers still to fire, the object URLs that are
    not revoked, whether [window.Compressor] is defined, whether the
    [checkCompressor] interval is still set and whether the probe's
    timeout is. *)
Record World := mkWorld {
  w_state : State;
  w_compressors : list Pending;
  w_toastTimers : nat;
  w_objectURLs : list string;
  w_windowCompressor : bool;
  w_checkCompressor : bool;
  w_probeTimer : bool
}.

Definition set_state (s : State) (w : World) : World :=
  mkWorld s (w_compressors w) (w_toastTimers w) (w_objectURLs w)
    (w_windowCompressor w) (w_checkCompressor w) (w_probeTimer w).

Definition set_compressors (l : list Pending) (w : World) : World :=
  mkWorld (w_state w) l (w_toastTimers w) (w_objectURLs w)
    (w_windowCompressor w) (w_checkCompressor w) (w_probeTimer w).

Definition set_toastTimers (n : nat) (w : World) : World :=
  mkWorld (w_state w) (w_compressors w) n (w_objectURLs w)
    (w_windowCompressor w) (w_checkCompressor w) (w_probeTimer w).

Definition set_objectURLs (l : list string) (w : World) : World :=
  mkWorld (w_state w) (w_compressors w) (w_toastTimers w) l
    (w_windowCompressor w) (w_checkCompressor w) (w_probeTimer w).

Definition set_windowCompressor (b : bool) (w : World) : World :=
  mkWorld (w_state w) (w_compressors w) (w_toastTimers w) (w_objectURLs w)
    b (w_checkCompressor w) (w_probeTimer w).

Definition set_checkCompressor (b : bool) (w : World) : World :=
  mkWorld (w_state w) (w_compressors w) (w_toastTimers w) (w_objectURLs w)
    (w_windowCompressor w) b (w_probeTimer w).

Definition set_probeTimer (b : bool) (w : World) : World :=
  mkWorld (w_state w) (w_compressors w) (w_toastTimers w) (w_objectURLs w)
    (w_windowCompressor w) (w_checkCompressor w) b.

(** [URL.revokeObjectURL(url)] on the URLs that are live. *)
Definition revoke (url : string) (live : list string) : list string :=
  filter (fun u => negb (String.eqb u url)) live.

(** What an effect leaves pending. *)
Definition absorb (w : World) (e : PageEffect) : World :=
  match e with
  | Handler (SetTimeout_clearToast _) => set_toastTimers (S (w_toastTimers w)) w
  | Handler (RevokeObjectURL url) => set_objectURLs (revoke url (w_objectURLs w)) w
  | Handler (CreateObjectURL _ url) => set_objectURLs (url :: w_objectURLs w) w
  | CreateBlobURL _ url => set_objectURLs (url :: w_objectURLs w) w
  | Handler (NewCompressor real file o) =>
      set_compressors (w_compressors w ++ [(real, file, o)])%list w
  | SetTimeout_probe _ => set_probeTimer true w
  | _ => w
  end.

(** The effect with the dependency [previewUrl]: when a render finds the
    cell changed, the cleanup of the previous render runs, which revokes
    the previous value if it is not empty. *)
Definition previewUrlCleanup (previous : string) (w : World) : World :=
  if String.eqb previous (st_previewUrl (w_state w)) then w
  else if nonempty previous then absorb w (Handler (RevokeObjectURL previous))
  else w.

(** One handler, the effects it leaves and the render that follows. *)
Definition settle (w : World) (c : P unit) : World :=
  let '(_, s, t) := c (w_state w) in
  previewUrlCleanup (st_previewUrl (w_state w))
    (fold_left absorb t (set_state s w)).

(** The component before anything happened, and after it mounted: the
    interval of [checkCompressor] is set and [detectAdBlock] has run.
    (As in a production build; the double mount of [StrictMode] in
    development is not followed.) *)
Definition unmounted (library : bool) : World :=
  mkWorld initialState [] 0 [] library false false.

Definition mount (library : bool) (thrown : option JSError) : World :=
  settle (set_checkCompressor true (unmounted library)) (detectAdBlock thrown).

(** What can happen to the mounted page. *)
Inductive PageEvent :=
| PickFile (e : ChangeEvent) (URL_createObjectURL : File -> string)
| DropFiles (dropped : list File) (URL_createObjectURL : File -> string)
| MoveSlider (value : Z)
| ClickCompress
| StandInDone (i : nat) (Date_now : Z)
| LibrarySuccess (i : nat) (Date_now : Z) (result : Blob)
| LibraryError (i : nat) (err : JSError)
| ClickDownload (k : nat) (URL_createObjectURL : Blob -> string)
| ClickShare (k : nat) (navigator : Navigator)
| ClickClearHistory
| ToastTimerFires
| ClickCloseToast
| CheckCompressorFires
| LibraryLoads
| OpenPrivacyPolicy
| ClosePrivacyPolicy
| ProbeTimerFires (testAd : ProbeElement).

(** [selectedFile && ...], [toast && ...]: an object is truthy, [null]
    is not. *)
Definition present {A} (v : option A) : bool :=
  match v with
  | Some _ => true
  | None => false
  end.

(** [l] without its element at position [i]. *)
Definition without {A} (i : nat) (l : list A) : list A :=
  (firstn i l ++ skipn (S i) l)%list.

(** What the browser hands out: an object URL is not empty and not one
    that is still live; the size of a file is not negative. *)
Definition mintable (w : World) (url : string) : bool :=
  nonempty url && negb (includes (w_objectURLs w) url).

Definition offered (w : World) (url : File -> string) (f : option File) : bool :=
  match f with
  | None => true
  | Some file => (0 <=? file_size file)%Z && mintable w (url file)
  end.

Section MountedPage.

Variable Number_toString : float -> string.

(** One event on the page, [None] when the page does not offer it: the
    slider and the compress button are rendered with a Selection only, the
    button is disabled while compressing, the slider ranges over 10..100,
    the history cards and the clear button are rendered with the history,
    the close buttons with the toast and the modal; a compressor calls back
    once, the stand-in with what it computes; a timer fires if it is set. *)
Definition page_step (w : World) (ev : PageEvent) : option World :=
  let s := w_state w in
  let fire (c : M unit) := Some (settle w (lift c)) in
  match ev with
  | PickFile e url =>
      if offered w url (hd_error (files e))
      then fire (handle Number_toString (FileChange e url))
      else None
  | DropFiles dropped url =>
      if offered w url (hd_error dropped)
      then fire (handle Number_toString (Drop dropped url))
      else None
  | MoveSlider value =>
      if present (st_selectedFile s) && (10 <=? value)%Z && (value <=? 100)%Z
      then fire (handle Number_toString (SliderChange value))
      else None
  | ClickCompress =>
      if present (st_selectedFile s) && negb (st_isCompressing s)
      then fire (handle Number_toString CompressClick)
      else None
  | StandInDone i now =>
      match nth_error (w_compressors w) i with
      | Some (false, file, o) =>
          let w1 := set_compressors (without i (w_compressors w)) w in
          match Compressor file o with
          | Succeeded result =>
              Some (settle w1 (lift (handle Number_toString (CompressSuccess o now result))))
          | _ => Some w1
          end
      | _ => None
      end
  | LibrarySuccess i now result =>
      match nth_error (w_compressors w) i with
      | Some (true, file, o) =>
          let w1 := set_compressors (without i (w_compressors w)) w in
          Some (settle w1 (lift (handle Number_toString (CompressSuccess o now result))))
      | _ => None
      end
  | LibraryError i err =>
      match nth_error (w_compressors w) i with
      | Some (true, file, o) =>
          let w1 := set_compressors (without i (w_compressors w)) w in
          Some (settle w1 (lift (handle Number_toString (CompressError o err))))
      | _ => None
      end
  | ClickDownload k url =>
      match nth_error (st_compressedHistory s) k with
      | Some item =>
          if mintable w (url (compressedBlob item))
          then Some (settle w (handleDownload url (Some (compressedBlob item))
                                 (compressedFileName item)))
          else None
      | None => None
      end
  | ClickShare k navigator =>
      match nth_error (st_compressedHistory s) k with
      | Some item =>
          fire (handle Number_toString
                  (ShareClick navigator (Some (compressedBlob item))
                     (compressedFileName item)))
      | None => None
      end
  | ClickClearHistory =>
      match st_compressedHistory s with
      | [] => None
      | _ => fire (handle Number_toString ClearHistoryClick)
      end
  | ToastTimerFires =>
      match w_toastTimers w with
      | O => None
      | S n => Some (settle (set_toastTimers n w) (lift (handle Number_toString ToastTimeout)))
      end
  | ClickCloseToast =>
      if present (st_toast s) then fire (setToast None) else None
  | CheckCompressorFires =>
      if w_checkCompressor w
      then Some (settle (set_checkCompressor false w)
                   (lift (handle Number_toString (CompressorChecked (w_windowCompressor w)))))
      else None
  | LibraryLoads => Some (set_windowCompressor true w)
  | OpenPrivacyPolicy => fire (handle Number_toString (PrivacyPolicyToggled true))
  | ClosePrivacyPolicy =>
      if st_showPrivacyPolicy s
      then fire (handle Number_toString (PrivacyPolicyToggled false))
      else None
  | ProbeTimerFires testAd =>
      if w_probeTimer w
      then Some (settle (set_probeTimer false w) (probeTimeout testAd))
      else None
  end.

(** The page after a sequence of events, oldest first, if it offers each
    of them in turn. *)
Fixpoint page_run (evs : list PageEvent) (w : World) : option World :=
  match evs with
  | [] => Some w
  | ev :: rest =>
      match page_step w ev with
      | Some w' => page_run rest w'
      | None => None
      end
  end.

(** The pages a visitor can get to. *)
Definition reachable (w : World) : Prop :=
  exists library thrown evs, page_run evs (mount library thrown) = Some w.

End MountedPage.

(** ** What every page a visitor can get to satisfies *)

(** A file the upload check lets through. *)
Definition acceptable (f : File) : Prop :=
  includes validTypes (file_type f) = true
  /\ (0 <= file_size f <= 20 * 1024 * 1024)%Z.

(** A compressor as [handleCompress] constructs it on such a file. *)
Definition well_started (p : Pending) : Prop :=
  let '(real, file, o) := p in
  acceptable file
  /\ cb_selectedFile o = file
  /\ has_success o = true
  /\ exists level, (10 <= level <= 100)%Z
       /\ quality o = Some (of_integer level / 100)%float.

(** A history entry [handleDownload] accepts. *)
Definition downloadable (item : HistoryEntry) : Prop :=
  nonempty (compressedFileName item) = true
  /\ blob_name (compressedBlob item) = Some (compressedFileName item).

Record page_invariant (w : World) : Prop := {
  inv_level : (10 <= st_compressionLevel (w_state w) <= 100)%Z;
  inv_selection :
    forall f, st_selectedFile (w_state w) = Some f -> acceptable f;
  inv_pending : Forall well_started (w_compressors w);
  inv_busy :
    (w_compressors w = [] /\ st_isCompressing (w_state w) = false)
    \/ (exists p, w_compressors w = [p] /\ st_isCompressing (w_state w) = true);
  inv_history :
    (List.length (st_compressedHistory (w_state w)) <= 1)%nat
    /\ (st_selectedFile (w_state w) <> None -> st_compressedHistory (w_state w) = [])
    /\ (w_compressors w <> [] -> st_compressedHistory (w_state w) = []);
  inv_urls :
    w_objectURLs w =
    if nonempty (st_previewUrl (w_state w)) then [st_previewUrl (w_state w)] else [];
  inv_preview :
    nonempty (st_previewUrl (w_state w)) = present (st_selectedFile (w_state w));
  inv_toast : st_toast (w_state w) <> None -> (0 < w_toastTimers w)%nat;
  inv_entries : Forall downloadable (st_compressedHistory (w_state w));
  inv_messages :
    forall t, st_toast (w_state w) = Some t ->
      message t <> "Processing file..." /\ message t <> "Compressing image..."
}.


(** ** A visit used in the checked scenarios *)

(** A probe no ad blocker touched, one that was hidden, and one that was
    taken out of the document. *)
Definition visible_probe : ProbeElement := mkProbe 1 (Some "body") "block" true.
Definition hidden_probe : ProbeElement := mkProbe 0 None "none" true.
Definition removed_probe : ProbeElement := mkProbe 0 None "" false.

(** What the browser returns for the blob of a history card. *)
Definition download_url (b : Blob) : string := "blob:download/" ++ interpolate (blob_name b).

(** A visit without the library: the probe and the check fire,
    [cat.jpg] is picked, the slider is moved and compression starts. *)
Definition visit : list PageEvent :=
  [ProbeTimerFires visible_probe; CheckCompressorFires;
   PickFile (mkChange [cat_jpg]) sample_url; MoveSlider 70; ClickCompress].

(** A visit with the library, up to the start of the compression of
    [banner.jpg]. *)
Definition library_visit : list PageEvent :=
  [CheckCompressorFires; PickFile (mkChange [banner_jpg]) sample_url;
   ClickCompress].

(** A visit with the library: [banner.jpg] is compressed, and
    [cat.jpg] is picked before the library has called back. *)
Definition impatient_visit : list PageEvent :=
  [CheckCompressorFires; PickFile (mkChange [banner_jpg]) sample_url;
   ClickCompress; PickFile (mkChange [cat_jpg]) sample_url].

(** The page after a sequence of events on a fresh mount, with or without
    the library (the fresh mount itself, if the page does not offer
    them). *)
Definition after (library : bool) (evs : list PageEvent) : World :=
  match page_run no_toString evs (mount library None) with
  | Some w => w
  | None => mount library None
  end.

(* ================================================================== *)
(** * Properties *)
(* ================================================================== *)

(** ** Strings: [split], [pop] and [join] *)

Lemma split_not_nil (sep : ascii) (s : string) : split sep s <> [].
Proof.
  destruct s as [|c rest]; simpl; [discriminate|].
  destruct (Ascii.eqb c sep); [discriminate|].
  destruct (split sep rest); discriminate.
Qed.

Lemma split_without_sep (sep : ascii) (s : string) :
  occurs sep s = false -> split sep s = [s].
Proof.
  induction s as [|c rest IH]; simpl; intros H; [reflexivity|].
  apply orb_false_iff in H as [Hc Hrest].
  rewrite Hc, (IH Hrest). reflexivity.
Qed.

Lemma split_last_segment (sep : ascii) (ext : string) :
  occurs sep ext = false ->
  forall base,
    split sep (base ++ String sep ext) = (split sep base ++ [ext])%list.
Proof.
  intros Hext base. induction base as [|c rest IH]; simpl.
  - rewrite Ascii.eqb_refl, (split_without_sep _ _ Hext). reflexivity.
  - destruct (Ascii.eqb c sep); rewrite IH; [reflexivity|].
    destruct (split sep rest) as [|seg segs] eqn:E; [|reflexivity].
    exfalso. exact (split_not_nil _ _ E).
Qed.

Lemma pop_snoc {A : Type} (l : list A) (x : A) : pop (l ++ [x]) = (Some x, l).
Proof.
  unfold pop. rewrite rev_app_distr. simpl. rewrite rev_involutive. reflexivity.
Qed.

Lemma join_split (sep : ascii) (s : string) :
  join (String sep EmptyString) (split sep s) = s.
Proof.
  unfold join. induction s as [|c rest IH]; simpl; [reflexivity|].
  destruct (Ascii.eqb_spec c sep) as [->|Hne].
  - simpl. destruct (split sep rest) as [|seg segs] eqn:E.
    + exfalso. exact (split_not_nil _ _ E).
    + simpl in *. rewrite IH. reflexivity.
  - destruct (split sep rest) as [|seg segs] eqn:E.
    + exfalso. exact (split_not_nil _ _ E).
    + simpl in *. destruct segs; simpl in *; rewrite <- IH; reflexivity.
Qed.

Lemma lastIndexOf_dot_none (s : string) :
  occurs "." s = false -> lastIndexOf_dot s = None.
Proof.
  induction s as [|c rest IH]; simpl; [reflexivity|].
  intros H. apply orb_false_iff in H as [Hc Hrest].
  rewrite (IH Hrest), Hc. reflexivity.
Qed.

Lemma lastIndexOf_dot_last (base ext : string) :
  occurs "." ext = false ->
  lastIndexOf_dot (base ++ String "." ext) = Some (String.length base).
Proof.
  intros Hext. induction base as [|c rest IH]; simpl.
  - rewrite (lastIndexOf_dot_none _ Hext). reflexivity.
  - rewrite IH. reflexivity.
Qed.

Lemma substring_all (s : string) : substring 0 (String.length s) s = s.
Proof.
  induction s as [|c rest IH]; simpl; [reflexivity|]. rewrite IH. reflexivity.
Qed.

Lemma substring_prefix (a b : string) :
  substring 0 (String.length a) (a ++ b) = a.
Proof.
  induction a as [|c rest IH]; simpl.
  - destruct b; reflexivity.
  - rewrite IH. reflexivity.
Qed.

(** The specification's reading of a name with an extension. *)
Lemma spec_derivedName_with_extension (base ext : string) :
  occurs "." ext = false ->
  spec_derivedName (base ++ "." ++ ext) = base ++ "_ai." ++ ext.
Proof.
  intros Hext. unfold spec_derivedName, spec_baseName, spec_extension.
  change (base ++ "." ++ ext) with (base ++ String "." ext).
  rewrite (lastIndexOf_dot_last _ _ Hext), substring_prefix.
  assert (Hsuf : substring (S (String.length base))
                   (String.length (base ++ String "." ext) - S (String.length base))
                   (base ++ String "." ext) = ext).
  { clear Hext. induction base as [|c rest IH]; simpl.
    - rewrite Nat.sub_0_r. apply substring_all.
    - exact IH. }
  rewrite Hsuf. reflexivity.
Qed.

(** X2. A name of the form base, dot, extension (the extension free of
    dots) gets the marker inserted before the last dot, in the stand-in and
    in the fallback of the success callback alike, which is the base name,
    the marker, a dot and the extension: [photo.png] becomes
    [photo_ai.png]. *)
Lemma newFileName_with_extension (base ext : string) (size : Z) (ty : string) :
  occurs "." ext = false ->
  let file := mkFile (base ++ "." ++ ext) size ty in
  newFileName file = base ++ "_ai." ++ ext
  /\ fallbackFileName file = base ++ "_ai." ++ ext
  /\ spec_derivedName (file_name file) = base ++ "_ai." ++ ext.
Proof.
  intros Hext file. subst file. unfold newFileName, fallbackFileName. simpl file_name.
  rewrite (spec_derivedName_with_extension _ _ Hext).
  change (base ++ "." ++ ext) with (base ++ String "." ext).
  rewrite (split_last_segment _ _ Hext), pop_snoc, join_split.
  repeat split.
Qed.

Lemma newFileName_with_extension_witness :
  newFileName (mkFile "photo.png" 4096 "image/png") = "photo_ai.png"
  /\ fallbackFileName (mkFile "archive.tar.gz" 4096 "image/png") = "archive.tar_ai.gz".
Proof.
  split.
  - exact (proj1 (newFileName_with_extension "photo" "png" 4096 "image/png" eq_refl)).
  - exact (proj1 (proj2 (newFileName_with_extension "archive.tar" "gz" 4096 "image/png"
                           eq_refl))).
Defined.

(** ** Binary64 arithmetic, as far as the stand-in needs it *)

Section Binary64.

Local Open Scope Z_scope.


Lemma digits2_size (p : positive) : digits2_pos p = Pos.size p.
Proof. induction p; simpl; congruence. Qed.

Lemma digits2_bounds (p : positive) :
  2 ^ (Zpos (digits2_pos p) - 1) <= Zpos p < 2 ^ Zpos (digits2_pos p).
Proof.
  rewrite digits2_size. split.
  - pose proof (Pos.size_le p) as H.
    assert (Hz : Zpos (2 ^ Pos.size p) <= Zpos p~0) by exact H.
    rewrite Pos2Z.inj_pow in Hz. 
    replace (Zpos (Pos.size p)) with (Z.succ (Zpos (Pos.size p) - 1)) in Hz by lia.
    rewrite Z.pow_succ_r in Hz by lia. lia.
  - pose proof (Pos.size_gt p) as H.
    assert (Hz : Zpos p < Zpos (2 ^ Pos.size p)) by exact H.
    rewrite Pos2Z.inj_pow in Hz. exact Hz.
Qed.

Lemma shr_1_m (r : shr_record) :
  0 <= shr_m r -> shr_m (shr_1 r) = shr_m r / 2.
Proof.
  destruct r as [m r s]. simpl. intros Hm.
  destruct m as [|p|p]; [reflexivity| |lia].
  destruct p as [p|p|]; simpl shr_m.
  - rewrite Pos2Z.inj_xI. apply Z.div_unique with (r := 1); lia.
  - rewrite Pos2Z.inj_xO. apply Z.div_unique with (r := 0); lia.
  - reflexivity.
Qed.

Lemma iter_shr_1_m (p : positive) (r : shr_record) :
  0 <= shr_m r -> shr_m (SpecFloat.iter_pos shr_1 p r) = shr_m r / 2 ^ Zpos p.
Proof.
  revert r. induction p as [p IH|p IH|]; intros r Hr; simpl SpecFloat.iter_pos.
  - assert (H1 : 0 <= shr_m (shr_1 r)) by (rewrite shr_1_m by assumption; apply Z.div_pos; lia).
    assert (H2 : 0 <= shr_m (SpecFloat.iter_pos shr_1 p (shr_1 r)))
      by (rewrite IH by assumption; apply Z.div_pos; [assumption|apply Z.pow_pos_nonneg; lia]).
    rewrite (IH _ H2), (IH _ H1), shr_1_m by assumption.
    rewrite !Z.div_div by (try apply Z.pow_pos_nonneg; lia).
    f_equal. replace (Zpos p~1) with (1 + Zpos p + Zpos p) by lia.
    rewrite !Z.pow_add_r by lia. lia.
  - assert (H2 : 0 <= shr_m (SpecFloat.iter_pos shr_1 p r))
      by (rewrite IH by assumption; apply Z.div_pos; [assumption|apply Z.pow_pos_nonneg; lia]).
    rewrite (IH _ H2), (IH _ Hr).
    rewrite !Z.div_div by (try apply Z.pow_pos_nonneg; lia).
    f_equal. replace (Zpos p~0) with (Zpos p + Zpos p) by lia.
    rewrite Z.pow_add_r by lia. reflexivity.
  - rewrite shr_1_m by assumption. reflexivity.
Qed.

(** A right shift to the exponent the format asks for: the new exponent is
    the larger of the two, and the mantissa has lost the low bits. *)
Lemma shr_fexp_m (m e : Z) (l : location) :
  0 <= m ->
  let e' := Z.max e (fexp prec emax (Zdigits2 m + e)) in
  snd (shr_fexp prec emax m e l) = e'
  /\ shr_m (fst (shr_fexp prec emax m e l)) = m / 2 ^ (e' - e).
Proof.
  intros Hm e'. unfold shr_fexp, shr.
  assert (Hrec : shr_m (shr_record_of_loc m l) = m)
    by (destruct l as [|[ | | ]]; reflexivity).
  destruct (fexp prec emax (Zdigits2 m + e) - e) as [|p|p] eqn:Hn; simpl fst; simpl snd.
  - subst e'. rewrite Z.max_l by lia. rewrite Z.sub_diag, Z.div_1_r. auto.
  - subst e'. rewrite Z.max_r by lia. split; [lia|].
    rewrite iter_shr_1_m by (rewrite Hrec; assumption).
    rewrite Hrec. f_equal. f_equal. lia.
  - subst e'. rewrite Z.max_l by lia. rewrite Z.sub_diag, Z.div_1_r. auto.
Qed.

(** When no shift is due, nothing is lost. *)
Lemma shr_fexp_exact (m e : Z) :
  fexp prec emax (Zdigits2 m + e) <= e ->
  shr_fexp prec emax m e loc_Exact = (Build_shr_record m false false, e).
Proof.
  intros H. unfold shr_fexp, shr.
  destruct (fexp prec emax (Zdigits2 m + e) - e) as [|p|p] eqn:Hn; try reflexivity; lia.
Qed.

Lemma round_nearest_even_bounds (m : Z) (l : location) :
  m <= round_nearest_even m l <= m + 1.
Proof.
  destruct l as [|[ | | ]]; simpl; try lia. destruct (Z.even m); lia.
Qed.

Lemma Zdigits2_le (m k : Z) : 0 <= k -> 0 <= m < 2 ^ k -> Zdigits2 m <= k.
Proof.
  intros Hk [H0 Hm]. destruct m as [|p|p]; simpl; [lia| |lia].
  pose proof (digits2_bounds p) as [Hlo _].
  apply Z.lt_succ_r. apply (Z.pow_lt_mono_r_iff 2); [lia|lia|].
  replace (Zpos (digits2_pos p)) with (Z.succ (Zpos (digits2_pos p) - 1)) by lia.
  rewrite Z.pow_succ_r by lia.
  assert (2 ^ (Zpos (digits2_pos p) - 1) < 2 ^ k) by lia.
  rewrite Z.pow_succ_r by lia. lia.
Qed.

(** Rounding a positive mantissa: the two shifts, with the mantissa in
    between within one unit of the truncated one. *)
Lemma binary_round_aux_positive (M : positive) (e : Z) :
  let e1 := Z.max e (fexp prec emax (Zdigits2 (Zpos M) + e)) in
  exists mr,
    let e2 := Z.max e1 (fexp prec emax (Zdigits2 mr + e1)) in
    Zpos M / 2 ^ (e1 - e) <= mr <= Zpos M / 2 ^ (e1 - e) + 1
    /\ binary_round_aux prec emax false (Zpos M) e loc_Exact =
       match mr / 2 ^ (e2 - e1) with
       | Z0 => S754_zero false
       | Zpos m =>
           if e2 <=? emax - prec then S754_finite false m e2
           else S754_infinity false
       | Zneg _ => S754_nan
       end.
Proof.
  intros e1. unfold binary_round_aux.
  destruct (shr_fexp_m (Zpos M) e loc_Exact ltac:(lia)) as [He1 Hm1].
  fold e1 in He1, Hm1.
  destruct (shr_fexp prec emax (Zpos M) e loc_Exact) as [mrs1 e1'].
  simpl in He1, Hm1. subst e1'.
  set (mr := round_nearest_even (shr_m mrs1) (loc_of_shr_record mrs1)).
  exists mr. cbv zeta. set (e2 := Z.max e1 (fexp prec emax (Zdigits2 mr + e1))).
  pose proof (round_nearest_even_bounds (shr_m mrs1) (loc_of_shr_record mrs1)) as Hr.
  fold mr in Hr. rewrite Hm1 in Hr. split; [exact Hr|].
  assert (H0 : 0 <= mr).
  { destruct Hr as [Hr _]. etransitivity; [|exact Hr].
    apply Z.div_pos; [lia|apply Z.pow_pos_nonneg; lia]. }
  destruct (shr_fexp_m mr e1 loc_Exact H0) as [He2 Hm2].
  fold e2 in He2, Hm2.
  destruct (shr_fexp prec emax mr e1 loc_Exact) as [mrs2 e2'].
  simpl in He2, Hm2. subst e2'. rewrite Hm2. reflexivity.
Qed.

(** The product of two positive mantissas, rounded: zero, or a finite
    value whose mantissa, brought back to the exponent of the exact
    product, exceeds it by less than one unit of the result. *)
Lemma SFmul_positive (ma mb : positive) (ea eb : Z) :
  Zpos ma < 2 ^ 53 -> Zpos mb < 2 ^ 53 ->
  -1074 < ea + eb <= 800 ->
  SF64mul (S754_finite false ma ea) (S754_finite false mb eb) = S754_zero false
  \/ exists m e,
       SF64mul (S754_finite false ma ea) (S754_finite false mb eb)
       = S754_finite false m e
       /\ ea + eb <= e <= ea + eb + 107
       /\ Zpos m * 2 ^ (e - (ea + eb)) <= Zpos ma * Zpos mb + 2 ^ (e - (ea + eb)).
Proof.
  intros Ha Hb He. unfold SF64mul, SFmul. cbn [xorb].
  destruct (binary_round_aux_positive (ma * mb) (ea + eb)) as (mr & Hmr & Hres).
  cbv zeta in Hres. rewrite Hres. clear Hres.
  set (e1 := Z.max (ea + eb) (fexp prec emax (Zdigits2 (Zpos (ma * mb)) + (ea + eb)))) in *.
  set (e2 := Z.max e1 (fexp prec emax (Zdigits2 mr + e1))).
  assert (HM : 0 < Zpos (ma * mb) < 2 ^ 106).
  { rewrite Pos2Z.inj_mul. split; [lia|].
    change (2 ^ 106) with (2 ^ 53 * 2 ^ 53). apply Z.mul_lt_mono_nonneg; lia. }
  assert (HD : Zdigits2 (Zpos (ma * mb)) <= 106) by (apply Zdigits2_le; lia).
  assert (HD0 : 0 < Zdigits2 (Zpos (ma * mb))) by (simpl; lia).
  assert (He1 : ea + eb <= e1 <= ea + eb + 53).
  { unfold e1, fexp, emin, prec, emax. lia. }
  assert (Hp1 : 0 < 2 ^ (e1 - (ea + eb))) by (apply Z.pow_pos_nonneg; lia).
  assert (Hq : 0 <= Zpos (ma * mb) / 2 ^ (e1 - (ea + eb)) <= Zpos (ma * mb)).
  { split; [apply Z.div_pos; lia|]. apply Z.div_le_upper_bound; [lia|]. nia. }
  assert (Hmr0 : 0 <= mr < 2 ^ 107).
  { change (2 ^ 107) with (2 * 2 ^ 106). lia. }
  assert (HDr : Zdigits2 mr <= 107) by (apply Zdigits2_le; lia).
  assert (HDr0 : 0 <= Zdigits2 mr) by (destruct mr; simpl; lia).
  assert (He2 : e1 <= e2 <= e1 + 54).
  { unfold e2, fexp, emin, prec, emax. lia. }
  assert (Hp2 : 0 < 2 ^ (e2 - e1)) by (apply Z.pow_pos_nonneg; lia).
  destruct (mr / 2 ^ (e2 - e1)) as [|m|m] eqn:Hm.
  - left. reflexivity.
  - right. exists m, e2.
    replace (e2 <=? emax - prec) with true
      by (symmetry; apply Z.leb_le; unfold emax, prec; lia).
    split; [reflexivity|]. split; [lia|].
    replace (e2 - (ea + eb)) with ((e2 - e1) + (e1 - (ea + eb))) by lia.
    rewrite Z.pow_add_r by lia.
    assert (H1 : Zpos m * 2 ^ (e2 - e1) <= mr)
      by (rewrite <- Hm, Z.mul_comm; apply Z.mul_div_le; lia).
    assert (H2 : Zpos (ma * mb) / 2 ^ (e1 - (ea + eb)) * 2 ^ (e1 - (ea + eb))
                 <= Zpos (ma * mb))
      by (rewrite Z.mul_comm; apply Z.mul_div_le; lia).
    rewrite <- Pos2Z.inj_mul.
    assert (H3 : 1 <= 2 ^ (e2 - e1)) by lia.
    nia.
  - exfalso. assert (0 <= mr / 2 ^ (e2 - e1)) by (apply Z.div_pos; lia). lia.
Qed.

(** A mantissa that already sits at the exponent of the format is kept as
    it is. *)
Lemma binary_round_aux_canonical (s : bool) (m : positive) (e : Z) :
  fexp prec emax (Zdigits2 (Zpos m) + e) <= e ->
  e <= emax - prec ->
  binary_round_aux prec emax s (Zpos m) e loc_Exact = S754_finite s m e.
Proof.
  intros Hc He. unfold binary_round_aux.
  rewrite (shr_fexp_exact _ _ Hc). cbn [shr_m loc_of_shr_record round_nearest_even].
  rewrite (shr_fexp_exact _ _ Hc). cbn [shr_m].
  apply Z.leb_le in He. rewrite He. reflexivity.
Qed.

Lemma iter_xO_value (p k : positive) :
  Zpos (Pos.iter xO p k) = Zpos p * 2 ^ Zpos k
  /\ Zpos (digits2_pos (Pos.iter xO p k)) = Zpos (digits2_pos p) + Zpos k.
Proof.
  induction k as [|k IH] using Pos.peano_ind.
  - simpl. split; lia.
  - rewrite Pos.iter_succ. destruct IH as [IHv IHd]. split.
    + rewrite Pos2Z.inj_xO, IHv, Pos2Z.inj_succ, Z.pow_succ_r by lia. lia.
    + cbn [digits2_pos]. rewrite Pos2Z.inj_succ, IHd, Pos2Z.inj_succ. lia.
Qed.

(** The Number of a positive integer below 2^53 holds exactly that
    integer, on a 53-bit mantissa. *)
Lemma of_integer_exact (n : Z) :
  0 < n < 2 ^ 53 ->
  exists m e,
    Prim2SF (of_integer n) = S754_finite false m e
    /\ -52 <= e <= 0
    /\ Zpos m = n * 2 ^ (- e)
    /\ Zpos m < 2 ^ 53.
Proof.
  intros [H0 Hn]. destruct n as [|p|p]; try lia.
  unfold of_integer. rewrite FloatAxioms.of_uint63_spec, Uint63.of_Z_spec.
  rewrite Z.mod_small by (unfold Uint63.wB; simpl; lia).
  unfold binary_normalize, binary_round.
  pose proof (digits2_bounds p) as [Hlo Hhi].
  set (d := Zpos (digits2_pos p)) in *.
  assert (Hd : 1 <= d <= 53).
  { split; [unfold d; lia|].
    destruct (Z_le_gt_dec d 53) as [H|H]; [exact H|exfalso].
    assert (2 ^ 53 <= 2 ^ (d - 1)) by (apply Z.pow_le_mono_r; lia). lia. }
  assert (Hf : fexp prec emax (d + 0) = d - 53)
    by (unfold fexp, emin, prec, emax; lia).
  rewrite Hf. unfold shl_align.
  destruct (d - 53 - 0) as [|k|k] eqn:Hk; try lia.
  - exists p, 0. assert (d = 53) by lia.
    rewrite binary_round_aux_canonical.
    + repeat split; try lia.
    + simpl Zdigits2. fold d. unfold fexp, emin, prec, emax. lia.
    + unfold emax, prec. lia.
  - destruct (iter_xO_value p k) as [Hv Hdig]. fold d in Hdig.
    exists (Pos.iter xO p k), (d - 53).
    rewrite binary_round_aux_canonical.
    + repeat split; try lia.
      * rewrite Hv. f_equal. f_equal. lia.
      * rewrite Hv. replace (Zpos k) with (53 - d) by lia.
        assert (Zpos p * 2 ^ (53 - d) < 2 ^ d * 2 ^ (53 - d))
          by (apply Z.mul_lt_mono_pos_r; [apply Z.pow_pos_nonneg|]; lia).
        rewrite <- Z.pow_add_r in H by lia.
        replace (d + (53 - d)) with 53 in H by lia. exact H.
    + simpl Zdigits2. rewrite Hdig. unfold fexp, emin, prec, emax. lia.
    + unfold emax, prec. lia.
Qed.

(** A finite Number above the subnormal range has a 53-bit mantissa. *)
Lemma finite_mantissa (x : float) (s : bool) (m : positive) (e : Z) :
  Prim2SF x = S754_finite s m e ->
  -1074 < e ->
  2 ^ 52 <= Zpos m < 2 ^ 53.
Proof.
  intros Hx He. pose proof (FloatAxioms.Prim2SF_valid x) as Hv.
  rewrite Hx in Hv. unfold valid_binary, bounded in Hv.
  apply andb_true_iff in Hv as [Hc _].
  unfold canonical_mantissa in Hc. apply Z.eqb_eq in Hc.
  assert (Hd : Zpos (digits2_pos m) = 53)
    by (unfold fexp, emin, prec, emax in Hc; lia).
  pose proof (digits2_bounds m) as Hb. rewrite Hd in Hb. exact Hb.
Qed.

Lemma quality_table : forallb quality_ok (map Z.of_nat (seq 10 91)) = true.
Proof. vm_compute. reflexivity. Qed.

Lemma quality_ok_in_range (level : Z) :
  10 <= level <= 100 -> quality_ok level = true.
Proof.
  intros H. pose proof quality_table as Ht.
  rewrite forallb_forall in Ht. apply Ht.
  rewrite <- (Z2Nat.id level) by lia. apply in_map. apply in_seq. lia.
Qed.

Lemma powerRZ_2_pos (e : Z) : (0 < powerRZ 2 e)%R.
Proof. apply powerRZ_lt. lra. Qed.

Lemma IZR_pow2 (k : Z) : 0 <= k -> IZR (2 ^ k) = powerRZ 2 k.
Proof.
  intros Hk. rewrite <- (Z2Nat.id k) by lia.
  rewrite <- pow_IZR, <- pow_powerRZ. reflexivity.
Qed.

(** One binary64 multiplication of positive Numbers, away from underflow
    and overflow: the result is zero or positive, and exceeds the exact
    product by a factor of at most [1 / (1 - 2^-52)]. *)
Lemma mul_upper (a b : float) (ma mb : positive) (ea eb : Z) :
  Prim2SF a = S754_finite false ma ea ->
  Prim2SF b = S754_finite false mb eb ->
  Zpos ma < 2 ^ 53 -> Zpos mb < 2 ^ 53 ->
  -1074 < ea + eb <= 800 ->
  (Prim2SF (a * b)%float = S754_zero false
   \/ exists m e,
        Prim2SF (a * b)%float = S754_finite false m e
        /\ ea + eb <= e <= ea + eb + 107)
  /\ (number_value (a * b)%float * (1 - / 4503599627370496)
      <= number_value a * number_value b)%R.
Proof.
  intros Ha Hb Hma Hmb He. unfold number_value.
  rewrite FloatAxioms.mul_spec, Ha, Hb.
  destruct (SFmul_positive ma mb ea eb Hma Hmb He) as [Hz|(m & e & Hr & Her & Hle)].
  - rewrite Hz. split; [left; reflexivity|]. simpl.
    pose proof (powerRZ_2_pos ea). pose proof (powerRZ_2_pos eb).
    assert (0 < IZR (Zpos ma))%R by (apply IZR_lt; lia).
    assert (0 < IZR (Zpos mb))%R by (apply IZR_lt; lia).
    rewrite Rmult_0_l.
    apply Rmult_le_pos; apply Rlt_le;
      (apply Rmult_lt_0_compat; [rewrite Rmult_1_l; assumption | assumption]).
  - rewrite Hr. split; [right; exists m, e; split; [reflexivity|exact Her]|].
    assert (Hx : Prim2SF (a * b)%float = S754_finite false m e)
      by (rewrite FloatAxioms.mul_spec, Ha, Hb; exact Hr).
    destruct (finite_mantissa _ _ _ _ Hx ltac:(lia)) as [Hm52 _].
    simpl SF2R. rewrite !Rmult_1_l.
    set (t := e - (ea + eb)) in *.
    apply IZR_le in Hle. rewrite plus_IZR, !mult_IZR, IZR_pow2 in Hle by lia.
    apply IZR_le in Hm52. change (IZR (2 ^ 52)) with 4503599627370496%R in Hm52.
    replace e with (t + (ea + eb)) by (unfold t; lia).
    rewrite (powerRZ_add 2 t (ea + eb)) by lra.
    rewrite (powerRZ_add 2 ea eb) in * by lra.
    pose proof (powerRZ_2_pos ea) as Pa. pose proof (powerRZ_2_pos eb) as Pb.
    pose proof (powerRZ_2_pos t) as Pt.
    set (A := IZR (Zpos ma)) in *. set (B := IZR (Zpos mb)) in *.
    set (X := IZR (Zpos m)) in *. set (pa := powerRZ 2 ea) in *.
    set (pb := powerRZ 2 eb) in *. set (pt := powerRZ 2 t) in *.
    assert (Hpab : (0 < pa * pb)%R) by (apply Rmult_lt_0_compat; assumption).
    assert (H1 : (X * pt * (pa * pb) <= (A * B + pt) * (pa * pb))%R)
      by (apply Rmult_le_compat_r; lra).
    assert (H2 : (pt * (pa * pb) * 4503599627370496 <= X * pt * (pa * pb))%R).
    { replace (pt * (pa * pb) * 4503599627370496)%R
        with (4503599627370496 * (pt * (pa * pb)))%R by ring.
      replace (X * pt * (pa * pb))%R with (X * (pt * (pa * pb)))%R by ring.
      apply Rmult_le_compat_r; [|exact Hm52].
      apply Rlt_le. apply Rmult_lt_0_compat; assumption. }
    replace (X * (pt * (pa * pb)) * (1 - / 4503599627370496))%R
      with (X * pt * (pa * pb) - X * pt * (pa * pb) / 4503599627370496)%R by field.
    replace (A * pa * (B * pb))%R with (A * B * (pa * pb))%R by ring.
    lra.
Qed.

Lemma integer_value_of_integer (n : Z) :
  0 <= n < 2 ^ 53 -> integer_value (of_integer n) = Some n.
Proof.
  intros [H0 Hn]. destruct (Z.eq_dec n 0) as [->|Hne]; [reflexivity|].
  destruct (of_integer_exact n ltac:(lia)) as (m & e & Hx & He & Hm & _).
  unfold integer_value. rewrite Hx.
  destruct e as [|p|p]; try lia.
  - rewrite Hm. f_equal. simpl. lia.
  - change (- Zneg p) with (Zpos p) in Hm. rewrite Hm.
    assert (0 < 2 ^ Zpos p) by (apply Z.pow_pos_nonneg; lia).
    rewrite Z.mod_mul by lia. rewrite Z.eqb_refl, Z.div_mul by lia. reflexivity.
Qed.

Lemma integer_value_not_nan (x : float) (n : Z) :
  integer_value x = Some n -> PrimFloat.is_nan x = false.
Proof.
  unfold integer_value, PrimFloat.is_nan. rewrite FloatAxioms.eqb_spec.
  unfold SFeqb, SFcompare.
  destruct (Prim2SF x) as [s|s| |s m e]; try discriminate; intros _.
  - reflexivity.
  - rewrite Z.compare_refl, Pos.compare_cont_refl. destruct s; reflexivity.
Qed.

Lemma Math_max_cases (a b : float) :
  PrimFloat.is_nan a = false -> PrimFloat.is_nan b = false ->
  Math_max a b = a \/ Math_max a b = b.
Proof.
  intros Ha Hb. unfold Math_max. rewrite Ha, Hb. cbn [orb].
  destruct (a <? b)%float; [right; reflexivity|].
  destruct (b <? a)%float; [left; reflexivity|].
  destruct (PrimFloat.is_zero a && PrimFloat.get_sign a); auto.
Qed.

(** [Math.floor] of a positive Number with a 53-bit mantissa is the Number
    of an integer, which does not exceed the argument. *)
Lemma Math_floor_positive (x : float) (m : positive) (e : Z) :
  Prim2SF x = S754_finite false m e ->
  Zpos m < 2 ^ 53 ->
  integer_value (Math_floor x) = Some (floor_of false m e)
  /\ (IZR (floor_of false m e) <= number_value x)%R.
Proof.
  intros Hx Hm. unfold Math_floor, number_value. rewrite Hx.
  unfold floor_of, SF2R. rewrite Rmult_1_l.
  destruct e as [|p|p].
  - split.
    + unfold integer_value. rewrite Hx. reflexivity.
    + simpl. rewrite Pos.mul_1_r. lra.
  - split.
    + unfold integer_value. rewrite Hx. reflexivity.
    + rewrite mult_IZR, IZR_pow2 by lia. lra.
  - assert (Hp : 0 < 2 ^ Zpos p) by (apply Z.pow_pos_nonneg; lia).
    split.
    + apply integer_value_of_integer. split; [apply Z.div_pos; lia|].
      apply Z.div_lt_upper_bound; [lia|]. nia.
    + assert (Hd : Zpos m / 2 ^ Zpos p * 2 ^ Zpos p <= Zpos m)
        by (rewrite Z.mul_comm; apply Z.mul_div_le; lia).
      apply IZR_le in Hd. rewrite mult_IZR, IZR_pow2 in Hd by lia.
      pose proof (powerRZ_2_pos (Zneg p)) as Pn.
      assert (Hinv : (powerRZ 2 (Zpos p) * powerRZ 2 (Zneg p) = 1)%R).
      { rewrite <- powerRZ_add by lra. replace (Zpos p + Zneg p) with 0 by lia.
        reflexivity. }
      set (F := IZR (Zpos m / 2 ^ Zpos p)) in *.
      set (pp := powerRZ 2 (Zpos p)) in *. set (pn := powerRZ 2 (Zneg p)) in *.
      assert (H1 : (F * pp * pn <= IZR (Zpos m) * pn)%R)
        by (apply Rmult_le_compat_r; lra).
      replace (F * pp * pn)%R with (F * (pp * pn))%R in H1 by ring.
      rewrite Hinv in H1. lra.
Qed.

(** The mantissa of any finite Number fits 53 bits. *)
Lemma mantissa_lt (x : float) (s : bool) (m : positive) (e : Z) :
  Prim2SF x = S754_finite s m e -> Zpos m < 2 ^ 53.
Proof.
  intros Hx. pose proof (FloatAxioms.Prim2SF_valid x) as Hv.
  rewrite Hx in Hv. unfold valid_binary, bounded in Hv.
  apply andb_true_iff in Hv as [Hc _].
  unfold canonical_mantissa in Hc. apply Z.eqb_eq in Hc.
  assert (Hd : Zpos (digits2_pos m) <= 53)
    by (unfold fexp, emin, prec, emax in Hc; lia).
  pose proof (digits2_bounds m) as [_ Hb].
  apply Z.lt_le_trans with (1 := Hb). apply Z.pow_le_mono_r; lia.
Qed.

(** What [integer_value] says about a positive finite Number. *)
Lemma integer_value_finite (y : float) (m : positive) (e n : Z) :
  Prim2SF y = S754_finite false m e ->
  integer_value y = Some n ->
  (0 <= e /\ n = Zpos m * 2 ^ e) \/ (e < 0 /\ Zpos m = n * 2 ^ (- e)).
Proof.
  intros Hy. unfold integer_value. rewrite Hy. destruct e as [|k|k]; intros H.
  - left. split; [lia|]. injection H as <-. reflexivity.
  - left. split; [lia|]. injection H as <-. reflexivity.
  - right. split; [lia|].
    destruct (Zpos m mod 2 ^ Zpos k =? 0) eqn:Hmod; [|discriminate].
    apply Z.eqb_eq in Hmod. injection H as <-.
    change (- Zneg k) with (Zpos k). rewrite Z.mul_comm.
    assert (Hp : 0 < 2 ^ Zpos k) by (apply Z.pow_pos_nonneg; lia).
    apply Z.div_exact; [lia|exact Hmod].
Qed.

Lemma integer_value_negative (y : float) (m : positive) (e n : Z) :
  Prim2SF y = S754_finite true m e ->
  integer_value y = Some n ->
  n < 0.
Proof.
  intros Hy. unfold integer_value. rewrite Hy. destruct e as [|k|k]; intros H.
  - assert (Hv : Zneg m * 2 ^ 0 < 0) by lia. injection H as <-. exact Hv.
  - assert (Hv : Zneg m * 2 ^ Zpos k < 0)
      by (apply Z.mul_neg_pos; [lia|apply Z.pow_pos_nonneg; lia]).
    injection H as <-. exact Hv.
  - destruct (Zpos m mod 2 ^ Zpos k =? 0); [|discriminate].
    assert (Hp : 0 < 2 ^ Zpos k) by (apply Z.pow_pos_nonneg; lia).
    assert (Hv : Zneg m / 2 ^ Zpos k < 0)
      by (apply Z.div_lt_upper_bound; lia).
    injection H as <-. exact Hv.
Qed.

(** [Math.max(1024, y)] for a Number [y] that holds an integer: 1024, or
    [y] itself when it is larger. *)
Lemma Math_max_1024 (y : float) (n : Z) :
  integer_value y = Some n ->
  exists n',
    integer_value (Math_max 1024 y) = Some n'
    /\ 1024 <= n' /\ (n' = 1024 \/ n' = n).
Proof.
  intros Hn. unfold Math_max.
  rewrite (integer_value_not_nan _ _ Hn).
  change (PrimFloat.is_nan 1024) with false. cbn [orb].
  destruct (1024 <? y)%float eqn:Hlt.
  - exists n. split; [exact Hn|]. split; [|right; reflexivity].
    rewrite FloatAxioms.ltb_spec in Hlt.
    change (Prim2SF 1024) with (S754_finite false 4503599627370496 (-42)) in Hlt.
    unfold SFltb, SFcompare in Hlt.
    pose proof Hn as Hn'. unfold integer_value in Hn'.
    destruct (Prim2SF y) as [s|s| |s m e] eqn:Hy; try discriminate.
    destruct s; [discriminate|]. clear Hn'.
    pose proof (mantissa_lt _ _ _ _ Hy) as Hm53.
    destruct (integer_value_finite _ _ _ _ Hy Hn) as [[He ->]|[He Hm]].
    + destruct (finite_mantissa _ _ _ _ Hy ltac:(lia)) as [Hm52 _].
      assert (0 < 2 ^ e) by (apply Z.pow_pos_nonneg; lia).
      assert (Zpos m * 1 <= Zpos m * 2 ^ e)
        by (apply Z.mul_le_mono_nonneg_l; lia).
      lia.
    + assert (Hn0 : 0 < n).
      { assert (0 < 2 ^ (- e)) by (apply Z.pow_pos_nonneg; lia). nia. }
      assert (Hk : - e < 53).
      { destruct (Z_lt_ge_dec (- e) 53) as [H|H]; [exact H|exfalso].
        assert (2 ^ 53 <= 2 ^ (- e)) by (apply Z.pow_le_mono_r; lia). nia. }
      destruct (finite_mantissa _ _ _ _ Hy ltac:(lia)) as [Hm52 _].
      destruct (Z.compare_spec (-42) e) as [Heq|Hl|Hg]; try discriminate.
      * subst e.
        destruct (PosDef.Pos.compare_cont Eq 4503599627370496 m) eqn:Hc;
          try discriminate.
        assert (Hlt' : (4503599627370496 < m)%positive) by exact Hc.
        change (2 ^ (- -42)) with 4398046511104 in Hm. lia.
      * assert (2 ^ (- e) <= 2 ^ 41) by (apply Z.pow_le_mono_r; lia).
        change (2 ^ 52) with (2 ^ 41 * 2048) in Hm52.
        assert (0 < 2 ^ 41) by lia. nia.
  - exists 1024.
    destruct (y <? 1024)%float; (split; [reflexivity|lia]).
Qed.

Lemma number_value_of_integer (n : Z) :
  0 <= n < 2 ^ 53 -> number_value (of_integer n) = IZR n.
Proof.
  intros [H0 Hn]. destruct (Z.eq_dec n 0) as [->|Hne]; [reflexivity|].
  destruct (of_integer_exact n ltac:(lia)) as (m & e & Hx & He & Hm & _).
  unfold number_value. rewrite Hx. simpl SF2R. rewrite Rmult_1_l, Hm.
  rewrite mult_IZR, IZR_pow2 by lia. rewrite Rmult_assoc.
  rewrite <- powerRZ_add by lra. replace (- e + e) with 0 by lia.
  simpl. lra.
Qed.

Lemma first_product (size : Z) (q : float) (mq : positive) (eq : Z) :
  0 <= size < 2 ^ 53 ->
  Prim2SF q = S754_finite false mq eq ->
  Zpos mq < 2 ^ 53 -> -60 <= eq <= -52 ->
  zero_or_positive (of_integer size * q)%float (-112) 55
  /\ (number_value (of_integer size * q)%float * (1 - / 4503599627370496)
      <= IZR size * number_value q)%R.
Proof.
  intros Hs Hq Hmq Heq.
  destruct (Z.eq_dec size 0) as [->|Hne].
  - assert (Hz : Prim2SF (of_integer 0 * q)%float = S754_zero false)
      by (rewrite FloatAxioms.mul_spec, Hq; reflexivity).
    split; [left; exact Hz|]. unfold number_value at 1. rewrite Hz. simpl. lra.
  - destruct (of_integer_exact size ltac:(lia)) as (m & e & Hx & He & _ & Hm).
    destruct (mul_upper _ _ _ _ _ _ Hx Hq Hm Hmq ltac:(lia)) as [Hshape Hval].
    rewrite (number_value_of_integer size Hs) in Hval. split; [|exact Hval].
    destruct Hshape as [Hz|(m' & e' & Hr & Her)]; [left; exact Hz|].
    right. exists m', e'. split; [exact Hr|lia].
Qed.

Lemma half_value : number_value 0.5%float = (/ 2)%R.
Proof.
  unfold number_value.
  change (Prim2SF 0.5%float) with (S754_finite false 4503599627370496 (-53)).
  unfold SF2R. rewrite Rmult_1_l.
  change 4503599627370496%positive with (2 ^ 52)%positive.
  change (Zpos (2 ^ 52)) with (2 ^ 52). rewrite IZR_pow2 by lia.
  rewrite <- powerRZ_add by lra. simpl. lra.
Qed.

Lemma second_product (x : float) (lo hi : Z) :
  -1000 <= lo -> hi <= 800 ->
  zero_or_positive x lo hi ->
  zero_or_positive (x * 0.5)%float (lo - 53) (hi + 54)
  /\ (number_value (x * 0.5)%float * (1 - / 4503599627370496)
      <= number_value x * / 2)%R.
Proof.
  intros Hlo Hhi [Hz|(m & e & Hx & He)].
  - assert (Hr : Prim2SF (x * 0.5)%float = S754_zero false)
      by (rewrite FloatAxioms.mul_spec, Hz; reflexivity).
    split; [left; exact Hr|]. unfold number_value. rewrite Hr, Hz. simpl. lra.
  - destruct (finite_mantissa _ _ _ _ Hx ltac:(lia)) as [_ Hm].
    assert (Hh : Prim2SF 0.5%float = S754_finite false 4503599627370496 (-53))
      by reflexivity.
    destruct (mul_upper x 0.5%float _ _ _ _ Hx Hh Hm ltac:(reflexivity) ltac:(lia))
      as [Hshape Hval].
    rewrite half_value in Hval. split; [|exact Hval].
    destruct Hshape as [Hr|(m' & e' & Hr & Her)]; [left; exact Hr|].
    right. exists m', e'. split; [exact Hr|lia].
Qed.

Lemma Math_floor_zero_or_positive (x : float) (lo hi : Z) :
  -1074 < lo ->
  zero_or_positive x lo hi ->
  exists n, integer_value (Math_floor x) = Some n /\ (IZR n <= number_value x)%R.
Proof.
  intros Hlo [Hz|(m & e & Hx & He)].
  - exists 0. unfold Math_floor, integer_value, number_value. rewrite Hz, Hz.
    split; [reflexivity|simpl; lra].
  - destruct (finite_mantissa _ _ _ _ Hx ltac:(lia)) as [_ Hm].
    exists (floor_of false m e). exact (Math_floor_positive x m e Hx Hm).
Qed.

Lemma quality_value (level : Z) :
  10 <= level <= 100 ->
  exists mq eq,
    Prim2SF (of_integer level / 100)%float = S754_finite false mq eq
    /\ Zpos mq < 2 ^ 53 /\ -60 <= eq <= -52
    /\ (number_value (of_integer level / 100)%float
        <= IZR level * (9007199254740993 / 900719925474099200))%R.
Proof.
  intros Hl. pose proof (quality_ok_in_range level Hl) as Hok.
  unfold quality_ok in Hok. unfold number_value.
  destruct (Prim2SF (of_integer level / 100)%float) as [s|s| |s mq eq];
    try discriminate.
  destruct s; [discriminate|].
  apply andb_true_iff in Hok as [Hok H4]. apply andb_true_iff in Hok as [Hok H3].
  apply andb_true_iff in Hok as [H1 H2].
  apply Z.leb_le in H1, H2, H4. apply Z.ltb_lt in H3.
  exists mq, eq. repeat split; try assumption.
  unfold SF2R. rewrite Rmult_1_l.
  apply IZR_le in H4. rewrite !mult_IZR, (IZR_pow2 (- eq)) in H4 by lia.
  change (IZR (2 ^ 53)) with 9007199254740992%R in H4.
  change (IZR (2 ^ 53 + 1)) with 9007199254740993%R in H4.
  pose proof (powerRZ_2_pos eq) as Pe.
  assert (Hinv : (powerRZ 2 (- eq) * powerRZ 2 eq = 1)%R).
  { rewrite <- powerRZ_add by lra. replace (- eq + eq) with 0 by lia. reflexivity. }
  set (X := IZR (Zpos mq)) in *. set (pe := powerRZ 2 eq) in *.
  set (pn := powerRZ 2 (- eq)) in *. set (L := IZR level) in *.
  assert (H5 : (X * 100 * 9007199254740992 * pe
                <= L * pn * 9007199254740993 * pe)%R)
    by (apply Rmult_le_compat_r; lra).
  replace (L * pn * 9007199254740993 * pe)%R
    with (L * 9007199254740993 * (pn * pe))%R in H5 by ring.
  rewrite Hinv in H5. lra.
Qed.

(** For every file size below 2^40 and every slider level, the size the
    stand-in reports is an integer number of bytes, at least 1024 and at
    most [max(1024, floor(size * level / 200))] in exact arithmetic. *)
Lemma simulated_size_exact_bound (size level : Z) :
  0 <= size < 2 ^ 40 ->
  10 <= level <= 100 ->
  exists n,
    integer_value (simulatedCompressedSize size (of_integer level / 100)%float)
    = Some n
    /\ 1024 <= n <= Z.max 1024 (size * level / 200).
Proof.
  intros Hs Hl. unfold simulatedCompressedSize.
  destruct (quality_value level Hl) as (mq & eq & Hq & Hmq & Heq & Hvq).
  set (q := (of_integer level / 100)%float) in *.
  destruct (first_product size q mq eq ltac:(lia) Hq Hmq Heq) as [Hz1 Hv1].
  destruct (second_product _ (-112) 55 ltac:(lia) ltac:(lia) Hz1) as [Hz2 Hv2].
  destruct (Math_floor_zero_or_positive _ (-112 - 53) (55 + 54) ltac:(lia) Hz2)
    as (n & Hn & Hle).
  set (y := Math_floor (of_integer size * q * 0.5)%float) in *.
  destruct (Math_max_1024 y n Hn) as (n' & Hn' & Hlo & Hcase).
  exists n'. split; [exact Hn'|]. split; [exact Hlo|].
  destruct Hcase as [-> | ->]; [lia|].
  apply Z.le_trans with (size * level / 200); [|lia].
  apply Z.div_le_lower_bound; [lia|].
  assert (HS : (0 <= IZR size <= 1099511627776)%R)
    by (split; apply IZR_le; lia).
  assert (HL : (10 <= IZR level <= 100)%R) by (split; apply IZR_le; lia).
  assert (HW : (IZR size * number_value q
                <= IZR size * (IZR level * (9007199254740993 / 900719925474099200)))%R)
    by (apply Rmult_le_compat_l; lra).
  assert (HP : (0 <= IZR size * IZR level <= 109951162777600)%R) by nra.
  set (v1 := number_value (of_integer size * q)%float) in *.
  set (v2 := number_value (of_integer size * q * 0.5)%float) in *.
  set (W := (IZR size * number_value q)%R) in *.
  set (P := (IZR size * IZR level)%R) in *.
  replace (IZR size * (IZR level * (9007199254740993 / 900719925474099200)))%R
    with (P * (9007199254740993 / 900719925474099200))%R in HW
    by (unfold P; ring).
  assert (Hfin : (200 * IZR n < P + 1)%R) by lra.
  unfold P in Hfin. rewrite <- !mult_IZR, <- plus_IZR in Hfin.
  apply lt_IZR in Hfin. lia.
Qed.

(** A length that holds an integer between 1024 and 2^53 - 1 is accepted
    by [new Uint8Array]. *)
Lemma new_Uint8Array_accepts (len : float) (n : Z) :
  integer_value len = Some n ->
  1024 <= n < 2 ^ 53 ->
  new_Uint8Array len = Some len.
Proof.
  intros Hn Hr. unfold new_Uint8Array.
  rewrite (integer_value_not_nan _ _ Hn).
  rewrite !FloatAxioms.ltb_spec.
  change (Prim2SF 0) with (S754_zero false).
  change (Prim2SF 9007199254740991)
    with (S754_finite false 9007199254740991 0).
  pose proof Hn as Hn'. unfold integer_value in Hn'.
  destruct (Prim2SF len) as [s|s| |s m e] eqn:Hx; try discriminate.
  - injection Hn' as <-. lia.
  - destruct s.
    + pose proof (integer_value_negative _ _ _ _ Hx Hn). lia.
    + clear Hn'. pose proof (mantissa_lt _ _ _ _ Hx) as Hm53.
      unfold SFltb, SFcompare.
      destruct (integer_value_finite _ _ _ _ Hx Hn) as [[He ->]|[He Hm]].
      * destruct (Z.eq_dec e 0) as [->|Hne].
        -- cbn [Z.compare].
           destruct (PosDef.Pos.compare_cont Eq 9007199254740991 m) eqn:Hc;
             try reflexivity.
           assert (Hlt : (9007199254740991 < m)%positive) by exact Hc.
           change (2 ^ 53) with 9007199254740992 in Hm53. lia.
        -- exfalso.
           destruct (finite_mantissa _ _ _ _ Hx ltac:(lia)) as [Hm52 _].
           assert (2 ^ 1 <= 2 ^ e) by (apply Z.pow_le_mono_r; lia).
           change (2 ^ 1) with 2 in *. nia.
      * destruct e as [|k|k]; try lia. reflexivity.
Qed.

(** The stand-in completes: for every file below 2^40 bytes and every
    quality [handleCompress] can pass, the result reaches the success
    callback. *)
Lemma Compressor_succeeds (file : File) (o : Options) (level : Z) :
  0 <= file_size file < 2 ^ 40 ->
  10 <= level <= 100 ->
  quality o = Some (of_integer level / 100)%float ->
  has_success o = true ->
  exists r, Compressor file o = Succeeded r.
Proof.
  intros Hs Hl Hq Hok. unfold Compressor. rewrite Hq, Hok.
  destruct (simulated_size_exact_bound _ _ Hs Hl) as (n & Hn & Hlo & Hhi).
  assert (Hn53 : n < 2 ^ 53).
  { assert (file_size file * level / 200 < 2 ^ 53).
    { apply Z.div_lt_upper_bound; [lia|]. nia. }
    lia. }
  rewrite (new_Uint8Array_accepts _ n Hn ltac:(lia)). eauto.
Qed.

End Binary64.

(** ** Running a handler on a symbolic state *)

Ltac unfold_handlers :=
  cbv [exec trace handle handleFileChange handleDrop handleCompress success
       error handleShare clearHistory showToast effect bind ret
       setSelectedFile setPreviewUrl setCompressionLevel setIsCompressing
       setIsRealCompressorLoaded setToast setCompressedHistory
       setShowPrivacyPolicy setShowAdBlockMessage
       st_selectedFile st_previewUrl st_compressionLevel st_isCompressing
       st_isRealCompressorLoaded st_toast st_compressedHistory
       st_showPrivacyPolicy st_showAdBlockMessage fst snd].

(** ** Upload and validation *)

(** C1, as the code has it. Every upload attempt first unsets the
    Selection, empties the history, clears the preview reference and puts
    the quality parameter back to 70; only then is the file validated. A
    file of an allowed type and of at most 20 MiB becomes the Selection (with
    a fresh preview reference) and a success notification is shown; a
    missing file, a disallowed type or a size over 20 MiB gives an error
    notification naming that constraint and leaves the Selection unset and
    the preview reference empty. No other cell changes. *)
Theorem handleFileChange_contract
    (nts : float -> string) (url : File -> string) (e : ChangeEvent) (s : State) :
  let s' := exec (handle nts (FileChange e url)) s in
  (st_compressedHistory s' = [] /\ st_compressionLevel s' = 70 /\ same_flags s s')
  /\ (forall file,
        hd_error (files e) = Some file ->
        includes validTypes (file_type file) = true ->
        file_size file <= 20 * 1024 * 1024 ->
        st_selectedFile s' = Some file
        /\ st_previewUrl s' = url file
        /\ st_toast s' = Some (mkToast "Image uploaded successfully!" "success"))
  /\ (hd_error (files e) = None ->
        st_selectedFile s' = None /\ st_previewUrl s' = ""
        /\ st_toast s' = Some (mkToast "No file selected." "error"))
  /\ (forall file,
        hd_error (files e) = Some file ->
        includes validTypes (file_type file) = false ->
        st_selectedFile s' = None /\ st_previewUrl s' = ""
        /\ st_toast s' = Some (mkToast
             "Unsupported file type. Please upload JPG, JPEG, PNG, GIF, or WEBP images."
             "error"))
  /\ (forall file,
        hd_error (files e) = Some file ->
        includes validTypes (file_type file) = true ->
        20 * 1024 * 1024 < file_size file ->
        st_selectedFile s' = None /\ st_previewUrl s' = ""
        /\ st_toast s' = Some (mkToast "File size should be less than 20MB." "error")).
Proof.
  destruct s as [sel pv lvl busy real t h pp ab].
  destruct e as [fs]. unfold same_flags, exec, handle, handleFileChange.
  cbn [files st_previewUrl].
  destruct (hd_error fs) as [file|].
  - destruct (includes validTypes (file_type file)) eqn:Hty; cbn [negb].
    + destruct (20 * 1024 * 1024 <? file_size file)%Z eqn:Hsz;
        [ apply Z.ltb_lt in Hsz | apply Z.ltb_ge in Hsz ];
        destruct (nonempty pv); unfold_handlers;
        repeat split; intros; repeat split; try congruence; try lia;
        match goal with
        | H : Some _ = Some _ |- _ => injection H as <-
        end; try reflexivity; try congruence; try lia.
    + destruct (nonempty pv); unfold_handlers;
        repeat split; intros; repeat split; congruence.
  - destruct (nonempty pv); unfold_handlers;
      repeat split; intros; repeat split; congruence.
Qed.

(** C1 as stated fails: a rejected upload does change the page. Uploading
    the 25 MiB [poster.png] while [banner.jpg] is selected at quality 40
    shows the size-limit error and unsets the Selection, empties the
    preview reference and puts the quality back to 70; uploading it after a
    compression empties the one-entry history. *)
Lemma rejected_upload_resets_state :
  let attempt := handle no_toString (FileChange (mkChange [big_png]) sample_url) in
  let s := uploaded banner_jpg 40 in
  let h := compressed_once in
  20 * 1024 * 1024 < file_size big_png
  /\ st_toast (exec attempt s) = Some (mkToast "File size should be less than 20MB." "error")
  /\ st_selectedFile s = Some banner_jpg
  /\ st_selectedFile (exec attempt s) <> st_selectedFile s
  /\ st_compressionLevel s = 40
  /\ st_compressionLevel (exec attempt s) <> st_compressionLevel s
  /\ st_previewUrl s = "blob:banner.jpg"
  /\ st_previewUrl (exec attempt s) <> st_previewUrl s
  /\ List.length (st_compressedHistory h) = 1%nat
  /\ st_compressedHistory (exec attempt h) <> st_compressedHistory h.
Proof.
  cbv zeta. repeat split; try (vm_compute; congruence); try reflexivity.
Qed.

(** The contract at work: [cat.jpg] is accepted from the initial state, and
    the text file is turned away from it. *)
Lemma handleFileChange_contract_witness :
  st_selectedFile
    (exec (handle no_toString (FileChange (mkChange [cat_jpg]) sample_url)) initialState)
  = Some cat_jpg
  /\ st_toast
       (exec (handle no_toString (FileChange (mkChange [notes_txt]) sample_url)) initialState)
     = Some (mkToast
          "Unsupported file type. Please upload JPG, JPEG, PNG, GIF, or WEBP images."
          "error").
Proof.
  split.
  - destruct (handleFileChange_contract no_toString sample_url
                (mkChange [cat_jpg]) initialState) as (_ & Hok & _).
    apply (Hok cat_jpg); [reflexivity | reflexivity | vm_compute; discriminate].
  - destruct (handleFileChange_contract no_toString sample_url
                (mkChange [notes_txt]) initialState) as (_ & _ & _ & Hty & _).
    apply (Hty notes_txt); reflexivity.
Defined.

(** ** The stand-in's output *)

(** C2 at a small file: the 500-byte [dot.png], accepted by the upload
    check, compressed by the stand-in at quality 70, comes back as 1024
    bytes, which is not less than 500. *)
Theorem standin_output_exceeds_small_file :
  st_selectedFile (uploaded tiny_png 70) = Some tiny_png
  /\ options_sent (uploaded tiny_png 70) = Some tiny_options
  /\ Compressor tiny_png tiny_options
     = Succeeded (mkBlob (RandomBytes 1024) 1024 "image/png" (Some "dot_ai.png"))
  /\ (1024 <? of_integer (file_size tiny_png))%float = false
  /\ (of_integer (file_size tiny_png) <? 1024)%float = true.
Proof.
  repeat split; vm_compute; reflexivity.
Qed.

(** C3 at a name without a dot: for the file named [photo] the stand-in
    and the fallback both produce [_ai.photo], the marker in front, where
    base name, marker, dot and (empty) extension read [photo_ai.]. *)
Theorem derived_name_of_dotless_file :
  newFileName photo = "_ai.photo"
  /\ fallbackFileName photo = "_ai.photo"
  /\ spec_derivedName (file_name photo) = "photo_ai."
  /\ Compressor photo (mkOptions (Some (of_integer 70 / 100)%float) true true photo "")
     = Succeeded (mkBlob (RandomBytes 1750) 1750 "image/png" (Some "_ai.photo")).
Proof.
  repeat split; vm_compute; reflexivity.
Qed.

(** What the stand-in hands to the success callback, whatever the file and
    the options. *)
Lemma Compressor_result (file : File) (o : Options) (r : Blob) :
  Compressor file o = Succeeded r ->
  blob_type r = file_type file
  /\ blob_name r = Some (newFileName file)
  /\ blob_size r =
     simulatedCompressedSize (file_size file)
       (match quality o with Some q => q | None => 0.8%float end).
Proof.
  unfold Compressor.
  destruct (new_Uint8Array _); [|discriminate].
  destruct (has_success o); [|discriminate].
  intros H. injection H as <-. repeat split.
Qed.

(** The options [handleCompress] sends with a Selection: the quality is
    the slider level divided by 100, and all callbacks are supplied. *)
Lemma handleCompress_options (nts : float -> string) (s : State) (file : File) :
  st_selectedFile s = Some file ->
  trace (handle nts CompressClick) s
  = [SetTimeout_clearToast 3000;
     NewCompressor (st_isRealCompressorLoaded s) file
       {| quality := Some (of_integer (st_compressionLevel s) / 100)%float;
          has_progress := true;
          has_success := true;
          cb_selectedFile := file;
          cb_previewUrl := st_previewUrl s |}].
Proof.
  destruct s as [sel pv lvl busy real t h pp ab]. simpl. intros ->. reflexivity.
Qed.

(** X1. For every original below 2^40 bytes and every slider level, the
    size the stand-in reports is smaller than the original exactly when
    the original exceeds 1024 bytes. *)
Lemma standin_smaller_iff (size level : Z) :
  0 <= size < 2 ^ 40 ->
  10 <= level <= 100 ->
  exists n,
    integer_value (simulatedCompressedSize size (of_integer level / 100)%float)
    = Some n
    /\ (n < size <-> 1024 < size).
Proof.
  intros Hs Hl.
  destruct (simulated_size_exact_bound size level Hs Hl) as (n & Hn & Hlo & Hhi).
  exists n. split; [exact Hn|]. split; [lia|]. intros Hbig.
  assert (size * level / 200 < size).
  { apply Z.div_lt_upper_bound; [lia|]. nia. }
  lia.
Qed.

Lemma standin_smaller_iff_witness :
  exists n,
    integer_value (simulatedCompressedSize 2000000 (of_integer 70 / 100)%float) = Some n
    /\ (n < 2000000 <-> 1024 < 2000000).
Proof.
  apply (standin_smaller_iff 2000000 70); [vm_compute; split; congruence | lia].
Defined.

(** C4. The output of the stand-in carries the MIME type of the input and
    its size is the Number [Math.max(1024, Math.floor(originalSize *
    quality * 0.5))]. For every file below 2^40 bytes (the upload check
    admits at most 20 MiB) and every quality [handleCompress] passes for a
    slider level, level / 100 in binary64, the stand-in does deliver a
    result, and its size is a whole number of bytes bounded above by
    [max(1024, floor(originalSize * level / 100 * 0.5))] taken in exact
    arithmetic. The 2,000,000-byte [image/jpeg] at level 70 yields exactly
    700,000 bytes. *)
Theorem standin_size_bound :
  (forall (file : File) (o : Options) (q : float) (r : Blob),
      quality o = Some q ->
      Compressor file o = Succeeded r ->
      blob_type r = file_type file
      /\ blob_size r
         = Math_max 1024 (Math_floor (of_integer (file_size file) * q * 0.5)%float))
  /\ (forall (file : File) (o : Options) (level : Z),
        0 <= file_size file < 2 ^ 40 ->
        10 <= level <= 100 ->
        quality o = Some (of_integer level / 100)%float ->
        has_success o = true ->
        exists r n,
          Compressor file o = Succeeded r
          /\ blob_type r = file_type file
          /\ integer_value (blob_size r) = Some n
          /\ n <= Z.max 1024 (file_size file * level / 200))
  /\ trace (handle no_toString CompressClick) (uploaded cat_jpg 70)
     = [SetTimeout_clearToast 3000; NewCompressor false cat_jpg cat_options]
  /\ Compressor cat_jpg cat_options
     = Succeeded (mkBlob (RandomBytes 700000) 700000 "image/jpeg" (Some "cat_ai.jpg"))
  /\ Z.max 1024 (2000000 * 70 / 200) = 700000.
Proof.
  split; [|split; [|repeat split; vm_compute; reflexivity]].
  - intros file o q r Hq Hr.
    destruct (Compressor_result file o r Hr) as (Hty & _ & Hsz).
    rewrite Hq in Hsz. split; [exact Hty | exact Hsz].
  - intros file o level Hs Hl Hq Hok.
    destruct (Compressor_succeeds file o level Hs Hl Hq Hok) as (r & Hr).
    destruct (Compressor_result file o r Hr) as (Hty & _ & Hsz).
    rewrite Hq in Hsz.
    destruct (simulated_size_exact_bound _ _ Hs Hl) as (n & Hn & _ & Hhi).
    exists r, n. rewrite Hsz. repeat split; assumption.
Qed.

(** The bound applied to the stand-in's run on [cat.jpg]. *)
Lemma standin_size_bound_witness :
  exists r n,
    Compressor cat_jpg cat_options = Succeeded r
    /\ blob_type r = "image/jpeg"
    /\ integer_value (blob_size r) = Some n
    /\ n <= Z.max 1024 (2000000 * 70 / 200).
Proof.
  destruct standin_size_bound as (_ & H & _).
  apply (H cat_jpg cat_options 70); [vm_compute; split; congruence | lia | reflexivity | reflexivity].
Defined.

(** ** The reported percentage *)

(** C5 at a rounding tie: the library compresses the 80,000-byte
    [banner.jpg] to 29,000 bytes, a reduction of exactly 63.75%. The
    notification reports 63.8 and the history card of the same result
    63.7: the two expressions round differently in binary64. *)
Theorem reduction_displays_disagree :
  let s' := exec (handle no_toString
                    (CompressSuccess banner_options 1700000000000 banner_result))
                 banner_compressing in
  options_sent (run no_toString [CompressorChecked true] (uploaded banner_jpg 70))
  = Some banner_options
  /\ st_toast s' = Some (mkToast "Image compressed successfully! Saved 63.8%" "success")
  /\ map (reductionText no_toString) (st_compressedHistory s') = ["63.7%"]
  /\ map originalSize (st_compressedHistory s') = [80000]
  /\ map compressedSize (st_compressedHistory s') = [29000%float]
  /\ 100 * (80000 - 29000) * 100 = 6375 * 80000.
Proof.
  cbv zeta. repeat split; vm_compute; reflexivity.
Qed.

(** An empty original: the upload check accepts the 0-byte [empty.png],
    the stand-in returns 1024 bytes, and both displays divide by zero. *)
Lemma reduction_of_empty_file :
  let s := uploaded empty_png 70 in
  let s' := run no_toString
              [CompressClick; CompressSuccess empty_options 1700000000000 empty_result]
              s in
  st_selectedFile s = Some empty_png
  /\ options_sent s = Some empty_options
  /\ Compressor empty_png empty_options = Succeeded empty_result
  /\ st_toast s' = Some (mkToast "Image compressed successfully! Saved -Infinity%" "success")
  /\ map (reductionText no_toString) (st_compressedHistory s') = ["-Infinity%"].
Proof.
  cbv zeta. repeat split; vm_compute; reflexivity.
Qed.

(** ** Starting and completing a compression *)

(** X3. With a Selection, a click on the compress button sets the busy
    flag and constructs exactly one compressor, the library's when it was
    detected and the stand-in otherwise, on the selected file with the
    quality level / 100; the Selection and the history stay as they are,
    and the "Compressing image..." toast is cleared in the same handler. *)
Theorem handleCompress_starts_one_compressor
    (nts : float -> string) (s : State) (file : File) :
  st_selectedFile s = Some file ->
  let s' := exec (handle nts CompressClick) s in
  st_isCompressing s' = true
  /\ st_toast s' = None
  /\ st_selectedFile s' = Some file
  /\ st_compressedHistory s' = st_compressedHistory s
  /\ st_compressionLevel s' = st_compressionLevel s
  /\ exists o,
       trace (handle nts CompressClick) s
       = [SetTimeout_clearToast 3000;
          NewCompressor (st_isRealCompressorLoaded s) file o]
       /\ quality o = Some (of_integer (st_compressionLevel s) / 100)%float
       /\ has_progress o = true /\ has_success o = true.
Proof.
  intros Hsel. rewrite (handleCompress_options nts s file Hsel).
  destruct s as [sel pv lvl busy real t h pp ab]. simpl in Hsel. subst sel.
  unfold_handlers. repeat split. eexists. repeat split.
Qed.

Lemma handleCompress_starts_one_compressor_witness :
  st_isCompressing (exec (handle no_toString CompressClick) (uploaded cat_jpg 70)) = true
  /\ st_toast (exec (handle no_toString CompressClick) (uploaded cat_jpg 70)) = None.
Proof.
  destruct (handleCompress_starts_one_compressor no_toString (uploaded cat_jpg 70)
              cat_jpg eq_refl) as (Hbusy & Htoast & _).
  split; [exact Hbusy | exact Htoast].
Defined.

(** X4. The success callback puts the entry of the result in front of the
    history, clears the busy flag, reports the saving with one decimal,
    unsets the Selection, empties the preview reference and puts the
    quality back to 70. *)
Theorem success_callback_resets
    (nts : float -> string) (o : Options) (now : Z) (result : Blob) (s : State) :
  let s' := exec (handle nts (CompressSuccess o now result)) s in
  st_compressedHistory s' = entry_of o now result :: st_compressedHistory s
  /\ st_isCompressing s' = false
  /\ st_selectedFile s' = None
  /\ st_previewUrl s' = ""
  /\ st_compressionLevel s' = 70
  /\ st_toast s' =
     Some (mkToast
             ("Image compressed successfully! Saved "
              ++ toFixed nts
                   (100 - (blob_size result / of_integer (file_size (cb_selectedFile o)))
                          * 100)%float 1
              ++ "%")
             "success").
Proof.
  destruct s as [sel pv lvl busy real t h pp ab].
  unfold exec, handle, success, entry_of.
  destruct (nonempty (cb_previewUrl o)); unfold_handlers; repeat split.
Qed.

(** ** Failure of a compression *)

(** C6. The error callback shows an error notification whose text carries
    the failure's message and clears the busy flag; the Selection, its
    preview reference (which is not released either), the quality and the
    history are as they were. *)
Theorem error_callback_keeps_selection
    (nts : float -> string) (o : Options) (err : JSError) (s : State) :
  let s' := exec (handle nts (CompressError o err)) s in
  st_toast s' =
    Some (mkToast ("Compression failed: " ++ err_message err ++ ". Please try again.")
            "error")
  /\ st_isCompressing s' = false
  /\ st_selectedFile s' = st_selectedFile s
  /\ st_previewUrl s' = st_previewUrl s
  /\ st_compressedHistory s' = st_compressedHistory s
  /\ st_compressionLevel s' = st_compressionLevel s
  /\ trace (handle nts (CompressError o err)) s = [SetTimeout_clearToast 3000].
Proof.
  destruct s. unfold_handlers. repeat split.
Qed.

(** ** History *)

(** What one event does to the history: a success callback puts its entry
    in front, a reset empties it, anything else leaves it alone. *)
Lemma history_step (nts : float -> string) (ev : Event) (s : State) :
  st_compressedHistory (exec (handle nts ev) s) =
    match ev with
    | CompressSuccess o now result => entry_of o now result :: st_compressedHistory s
    | _ => if resets_history ev then [] else st_compressedHistory s
    end.
Proof.
  destruct s as [sel pv lvl busy real t h pp ab].
  destruct ev as [e url|dropped url|v| |o now result|o err|nav blob name| | |found|open];
    unfold exec, handle; cbn [st_selectedFile st_previewUrl st_compressionLevel
                               st_isRealCompressorLoaded resets_history].
  - unfold handleFileChange.
    destruct (hd_error (files e)) as [file|];
      [destruct (negb (includes validTypes (file_type file)));
       [|destruct (20 * 1024 * 1024 <? file_size file)%Z]|];
      destruct (nonempty pv); reflexivity.
  - destruct dropped as [|f rest]; [reflexivity|].
    unfold handleDrop, handleFileChange. cbn [hd_error files].
    destruct (negb (includes validTypes (file_type f)));
      [|destruct (20 * 1024 * 1024 <? file_size f)%Z];
      destruct (nonempty pv); reflexivity.
  - reflexivity.
  - destruct sel; reflexivity.
  - unfold success, entry_of. destruct (nonempty (cb_previewUrl o)); reflexivity.
  - reflexivity.
  - unfold handleShare. destruct blob as [blob|]; [|reflexivity].
    destruct (share nav) as [sh|]; [|reflexivity].
    destruct (canShare nav) as [can|]; [|reflexivity].
    destruct (can _); [|reflexivity].
    destruct (sh _) as [err|]; [|reflexivity].
    destruct (String.eqb (err_name err) "AbortError"); reflexivity.
  - reflexivity.
  - reflexivity.
  - reflexivity.
  - reflexivity.
Qed.

Lemma history_run (nts : float -> string) (evs : list Event) (s : State) :
  forallb (fun ev => negb (resets_history ev)) evs = true ->
  st_compressedHistory (run nts evs s)
  = (rev (successes evs) ++ st_compressedHistory s)%list.
Proof.
  revert s. induction evs as [|ev evs IH]; intros s Hno; simpl; [reflexivity|].
  simpl in Hno. apply andb_true_iff in Hno as [Hev Hrest].
  rewrite (IH _ Hrest), history_step.
  apply negb_true_iff in Hev.
  destruct ev; simpl in Hev |- *; try rewrite Hev; try reflexivity;
    try discriminate.
  rewrite <- app_assoc. reflexivity.
Qed.

(** C7. Over any run of events with no clear and no upload, the history
    grows by exactly the entries of the successful compressions, the newest
    in front and the earlier entries untouched behind them: N successes on
    an empty history leave exactly N entries. Each success puts exactly one
    entry in front; no event alters an entry already there; and a clear
    empties the history whatever it held. *)
Theorem history_newest_first (nts : float -> string) :
  (forall evs s,
      forallb (fun ev => negb (resets_history ev)) evs = true ->
      st_compressedHistory (run nts evs s)
      = (rev (successes evs) ++ st_compressedHistory s)%list
      /\ (st_compressedHistory s = [] ->
          List.length (st_compressedHistory (run nts evs s))
          = List.length (successes evs)))
  /\ (forall o now result s,
        st_compressedHistory (exec (handle nts (CompressSuccess o now result)) s)
        = entry_of o now result :: st_compressedHistory s)
  /\ (forall ev s,
        let h' := st_compressedHistory (exec (handle nts ev) s) in
        h' = st_compressedHistory s \/ h' = []
        \/ exists e, h' = e :: st_compressedHistory s)
  /\ (forall s, st_compressedHistory (exec (handle nts ClearHistoryClick) s) = []).
Proof.
  split; [|split; [|split]].
  - intros evs s Hno. split.
    + apply history_run; assumption.
    + intros Hempty. rewrite history_run by assumption.
      rewrite Hempty, app_nil_r, length_rev. reflexivity.
  - intros. rewrite history_step. reflexivity.
  - intros ev s h'. subst h'. rewrite history_step.
    destruct ev; try destruct (resets_history _); eauto.
  - intros s. rewrite history_step. reflexivity.
Qed.

(** Two successes on the empty history of the first render: two entries,
    the later one in front. *)
Lemma history_newest_first_witness :
  st_compressedHistory (run no_toString two_successes initialState)
  = [entry_of banner_options 1700000000650 banner_result;
     entry_of cat_options 1700000000000 cat_result]
  /\ List.length (st_compressedHistory (run no_toString two_successes initialState))
     = 2%nat.
Proof.
  destruct (history_newest_first no_toString) as (Hrun & _).
  destruct (Hrun two_successes initialState eq_refl) as (Horder & Hcount).
  split; [exact Horder | exact (Hcount eq_refl)].
Defined.

(** ** Compression without a Selection *)

(** C8. With no Selection, a click on the compress button shows the error
    notification and nothing else: every other cell, the history and the
    busy flag among them, is as it was, and the only effect is the toast's
    timer, so no compressor is constructed. *)
Theorem handleCompress_without_selection (nts : float -> string) (s : State) :
  st_selectedFile s = None ->
  let s' := exec (handle nts CompressClick) s in
  st_toast s' = Some (mkToast "Please upload an image to compress." "error")
  /\ st_compressedHistory s' = st_compressedHistory s
  /\ st_isCompressing s' = st_isCompressing s
  /\ same_but_toast s s'
  /\ trace (handle nts CompressClick) s = [SetTimeout_clearToast 3000]
  /\ existsb starts_compressor (trace (handle nts CompressClick) s) = false.
Proof.
  destruct s as [sel pv lvl busy real t h pp ab]. simpl. intros ->.
  unfold same_but_toast. unfold_handlers. repeat split.
Qed.

Lemma handleCompress_without_selection_witness :
  st_toast (exec (handle no_toString CompressClick) initialState)
  = Some (mkToast "Please upload an image to compress." "error")
  /\ st_isCompressing (exec (handle no_toString CompressClick) initialState) = false.
Proof.
  destruct (handleCompress_without_selection no_toString initialState eq_refl)
    as (Htoast & _ & Hbusy & _).
  split; [exact Htoast | exact Hbusy].
Defined.

(** ** Sharing *)

(** C9, at the input where the code departs from it. In a browser that
    has [navigator.share] and no [navigator.canShare], the test before
    the fallback calls [navigator.canShare] all the same: the call throws,
    nothing is shared and the user is not told that sharing is
    unsupported; no cell changes and no toast timer is set. *)
Theorem handleShare_throws_without_canShare
    (nts : float -> string) (navigator_share : ShareData -> option JSError)
    (blob : Blob) (fileName : string) (s : State) :
  let click :=
    handle nts (ShareClick (mkNavigator (Some navigator_share) None)
                  (Some blob) fileName) in
  exec click s = s
  /\ trace click s
     = [UnhandledRejection (mkError "TypeError" "navigator.canShare is not a function")]
  /\ existsb opens_share (trace click s) = false
  /\ st_toast (exec click (exec (handle nts ToastTimeout) s)) = None.
Proof.
  destruct s as [sel pv lvl busy real t h pp ab]. cbv zeta.
  unfold exec, trace, handle, handleShare. cbn [share canShare].
  unfold_handlers. repeat split.
Qed.



(** ** The progress callback of the stand-in *)

Lemma lookup_app_none (name : string) (chain : list Scope) (global : Scope) :
  resolve name chain = None ->
  resolve name (chain ++ [global]) = lookup name global.
Proof.
  induction chain as [|sc chain IH]; simpl.
  - intros _. destruct (lookup name global); reflexivity.
  - destruct (lookup name sc); [discriminate|]. exact IH.
Qed.

(** No scope around the call site binds [percentage], whatever the counter
    holds. *)
Lemma percentage_unbound (progress progressInterval : Z) :
  resolve "percentage" (lexicalChain progress progressInterval) = None.
Proof. reflexivity. Qed.

(** C10. In the stand-in, the argument of [options.progress] is the
    identifier [percentage], which no scope of the stand-in binds: the
    interval's own counter is [progress]. So whenever a callback is
    supplied and the counter has not passed 100, a firing of the interval
    either throws a [ReferenceError] (no global of that name: the callback
    is not invoked at all) or passes the global's value; in no case does
    what is passed depend on the counter, which meanwhile steps 10, 20,
    ..., 100. *)
Theorem progress_argument_ignores_counter :
  (forall progress progressInterval,
      resolve "percentage" (lexicalChain progress progressInterval) = None)
  /\ (forall (o : Options) (global : Scope) (progressInterval progress : Z),
        has_progress o = true ->
        progress + 10 <= 100 ->
        intervalTick o global progressInterval progress
        = (progress + 10,
           match lookup "percentage" global with
           | Some v => ProgressCalled v
           | None => Thrown (mkError "ReferenceError" "percentage is not defined")
           end))
  /\ (forall (o : Options) (global : Scope) (progressInterval : Z)
             (n : nat) (progress : Z),
        has_progress o = true ->
        lookup "percentage" global = None ->
        Forall (fun fired =>
                  snd fired = Thrown (mkError "ReferenceError" "percentage is not defined")
                  \/ snd fired = IntervalCleared)
               (intervalRun o global progressInterval n progress))
  /\ (forall (o : Options) (global : Scope) (progressInterval : Z),
        has_progress o = true ->
        lookup "percentage" global = None ->
        map fst (intervalRun o global progressInterval 10 0)
        = [10; 20; 30; 40; 50; 60; 70; 80; 90; 100]).
Proof.
  split; [reflexivity|]. split; [|split].
  - intros o global id progress Hp Hle. unfold intervalTick.
    rewrite Hp. apply Z.leb_le in Hle. rewrite Hle. cbn [andb].
    rewrite (lookup_app_none _ _ _ (percentage_unbound _ _)).
    destruct (lookup "percentage" global); reflexivity.
  - intros o global id n. induction n as [|n IH]; intros progress Hp Hg; simpl.
    + constructor.
    + unfold intervalTick. rewrite Hp. cbn [andb].
      destruct (progress + 10 <=? 100)%Z.
      * rewrite (lookup_app_none _ _ _ (percentage_unbound _ _)), Hg.
        constructor; [left; reflexivity | apply IH; assumption].
      * constructor; [right; reflexivity | constructor].
  - intros o global id Hp Hg.
    assert (Ht : forall p, (p + 10 <=? 100)%Z = true ->
                 intervalTick o global id p
                 = (p + 10, Thrown (mkError "ReferenceError" "percentage is not defined"))).
    { intros p Hle. unfold intervalTick. rewrite Hp, Hle. cbn [andb].
      rewrite (lookup_app_none _ _ _ (percentage_unbound _ _)), Hg. reflexivity. }
    unfold intervalRun.
    repeat (rewrite Ht by reflexivity; cbv beta iota zeta).
    reflexivity.
Qed.

(** The interval of the compression [handleCompress] starts for [cat.jpg]:
    the first firing throws, with the counter at 10. *)
Lemma progress_argument_ignores_counter_witness :
  intervalTick cat_options [] 7 0
  = (10, Thrown (mkError "ReferenceError" "percentage is not defined"))
  /\ map fst (intervalRun cat_options [] 7 10 0)
     = [10; 20; 30; 40; 50; 60; 70; 80; 90; 100].
Proof.
  destruct progress_argument_ignores_counter as (_ & Htick & _ & Hsteps).
  split.
  - apply (Htick cat_options [] 7 0 eq_refl). discriminate.
  - exact (Hsteps cat_options [] 7 eq_refl eq_refl).
Defined.

(** ** The mounted page: what holds wherever a visitor can get to *)

Ltac unfold_page :=
  cbv [settle lift fold_left map app absorb previewUrlCleanup
       set_state set_compressors set_toastTimers set_objectURLs
       set_windowCompressor set_checkCompressor set_probeTimer
       w_state w_compressors w_toastTimers w_objectURLs w_windowCompressor
       w_checkCompressor w_probeTimer
       andThen perform skip handleDownload detectAdBlock probeTimeout
       exec trace handle handleFileChange handleDrop handleCompress success
       error handleShare clearHistory showToast effect bind ret
       setSelectedFile setPreviewUrl setCompressionLevel setIsCompressing
       setIsRealCompressorLoaded setToast setCompressedHistory
       setShowPrivacyPolicy setShowAdBlockMessage
       st_selectedFile st_previewUrl st_compressionLevel st_isCompressing
       st_isRealCompressorLoaded st_toast st_compressedHistory
       st_showPrivacyPolicy st_showAdBlockMessage fst snd].


Ltac toast_goal :=
  match goal with
  | |- forall t : Toast, _ = Some t -> _ =>
      let t := fresh "t" in let H := fresh in
      intros t H; try discriminate H; injection H as <-; simpl; split; discriminate
  | |- _ <> None -> _ => let H := fresh in intros H; try (exfalso; apply H; reflexivity); simpl; lia
  end.

Lemma mount_invariant library thrown : page_invariant (mount library thrown).
Proof.
  destruct thrown; unfold mount, unmounted, initialState; unfold_page.
  all: simpl.
  all: constructor; simpl; try lia; try discriminate; auto; try toast_goal.
Qed.

Ltac open_world w :=
  let s := fresh "s" in
  destruct w as [s pend timers live lib chk probe];
  destruct s as [sel pv level busy real toast hist priv ad].

Ltac open_invariant H :=
  destruct H as [Hlevel Hsel Hpend Hbusy Hhist Hurls Hprev Htoast Hentries Hmsg];
  cbn [w_state w_compressors w_toastTimers w_objectURLs st_selectedFile
       st_previewUrl st_compressionLevel st_isCompressing st_toast
       st_compressedHistory] in *.

Ltac projections :=
  cbn [w_state w_compressors w_toastTimers w_objectURLs w_windowCompressor
       w_checkCompressor w_probeTimer
       st_selectedFile st_previewUrl st_compressionLevel st_isCompressing
       st_isRealCompressorLoaded st_toast st_compressedHistory
       st_showPrivacyPolicy st_showAdBlockMessage message type].

Ltac easy_goal :=
  projections; cbn [List.length nonempty present];
  repeat match goal with
         | H : nonempty ?x = true |- context [nonempty ?x] => rewrite H
         | H : nonempty ?x = false |- context [nonempty ?x] => rewrite H
         end;
  first
    [ toast_goal
    | lia
    | assumption
    | reflexivity
    | solve [constructor]
    | solve [intros; discriminate]
    | solve [repeat split; intros; try discriminate; try lia; try congruence; auto]
    | solve [exfalso; subst; cbn in *; congruence]
    | idtac ].

Ltac compare_urls :=
  cbn -[String.eqb]; rewrite ?String.eqb_refl; cbn -[String.eqb];
  repeat match goal with
         | |- context [String.eqb ?a ?b] =>
             destruct (String.eqb_spec a b); try discriminate; try congruence;
             cbn -[String.eqb]
         end.

Section Steps.
Variable nts : float -> string.





Lemma nonempty_false (s : string) : nonempty s = false -> s = "".
Proof. destruct s; [reflexivity | discriminate]. Qed.



Lemma fresh_one (pv u : string) : negb (includes [pv] u) = true -> u <> pv.
Proof.
  unfold includes. cbn [existsb]. rewrite orb_false_r.
  destruct (String.eqb_spec u pv); [discriminate | auto].
Qed.

Lemma upload_invariant w e url :
  offered w url (hd_error (files e)) = true ->
  page_invariant w ->
  page_invariant (settle w (lift (handle nts (FileChange e url)))).
Proof.
  open_world w. intros Hoff Hinv. open_invariant Hinv.
  unfold offered, mintable in Hoff. cbn [w_objectURLs] in Hoff.
  unfold settle, lift, handle, handleFileChange.
  cbn [w_state st_previewUrl].
  destruct (hd_error (files e)) as [f|] eqn:Hf;
  [destruct (includes validTypes (file_type f)) eqn:Hty;
    [destruct (20 * 1024 * 1024 <? file_size f)%Z eqn:Hsz|]|];
  (destruct (nonempty pv) eqn:Hpv; [|apply nonempty_false in Hpv; subst pv]);
  subst live.
  3, 4: apply andb_prop in Hoff; destruct Hoff as [Hsize Hoff];
        apply andb_prop in Hoff; destruct Hoff as [Hne Hfresh];
        apply Z.leb_le in Hsize; apply Z.ltb_ge in Hsz;
        assert (Hacc : acceptable f) by (split; [assumption | lia]);
        destruct (url f) as [|c u] eqn:Hu; [discriminate Hne|].
  3: apply fresh_one in Hfresh.
  all: unfold_page; rewrite ?Hpv; compare_urls.
  all: constructor; easy_goal.
Qed.

Lemma settle_nothing w : settle w (lift (ret tt)) = w.
Proof.
  open_world w. unfold_page. rewrite String.eqb_refl. reflexivity.
Qed.

Lemma drop_invariant w dropped url :
  offered w url (hd_error dropped) = true ->
  page_invariant w ->
  page_invariant (settle w (lift (handle nts (Drop dropped url)))).
Proof.
  intros Hoff Hinv.
  destruct (hd_error dropped) as [f|] eqn:Hf.
  - replace (handle nts (Drop dropped url))
      with (handle nts (FileChange (mkChange [f]) url))
      by (unfold handle, handleDrop; rewrite Hf; reflexivity).
    apply upload_invariant; assumption.
  - replace (handle nts (Drop dropped url)) with (@ret unit tt)
      by (unfold handle, handleDrop; rewrite Hf; reflexivity).
    rewrite settle_nothing. assumption.
Qed.

Lemma nonempty_app (a b : string) : nonempty b = true -> nonempty (a ++ b) = true.
Proof. destruct a; intros H; [exact H | reflexivity]. Qed.

Lemma entry_downloadable (o : Options) (now : Z) (result : Blob) :
  downloadable (entry_of o now result).
Proof.
  unfold downloadable, entry_of. cbn. split; [|reflexivity].
  destruct (blob_name result) as [[|c n]|]; cbn; try reflexivity;
    unfold fallbackFileName; destruct (pop _); apply nonempty_app; reflexivity.
Qed.

Lemma revoke_twice (a b : string) : revoke a (revoke b [a]) = [].
Proof.
  unfold revoke. cbn -[String.eqb].
  destruct (String.eqb_spec a b); cbn -[String.eqb];
    [|rewrite String.eqb_refl]; reflexivity.
Qed.

(** The page the success callback leaves. *)
Lemma success_settles w p o now result :
  page_invariant w ->
  w_compressors w = [p] ->
  settle (set_compressors [] w) (lift (handle nts (CompressSuccess o now result)))
  = {| w_state :=
         {| st_selectedFile := None;
            st_previewUrl := "";
            st_compressionLevel := 70;
            st_isCompressing := false;
            st_isRealCompressorLoaded := st_isRealCompressorLoaded (w_state w);
            st_toast :=
              Some (mkToast
                ("Image compressed successfully! Saved "
                 ++ toFixed nts
                      (100 - (blob_size result / of_integer (file_size (cb_selectedFile o))) * 100)%float 1
                 ++ "%") "success");
            st_compressedHistory := [entry_of o now result];
            st_showPrivacyPolicy := st_showPrivacyPolicy (w_state w);
            st_showAdBlockMessage := st_showAdBlockMessage (w_state w) |};
       w_compressors := [];
       w_toastTimers := S (w_toastTimers w);
       w_objectURLs := [];
       w_windowCompressor := w_windowCompressor w;
       w_checkCompressor := w_checkCompressor w;
       w_probeTimer := w_probeTimer w |}.
Proof.
  open_world w. intros Hinv Hp. open_invariant Hinv. cbn in Hp. subst pend.
  destruct Hhist as (_ & _ & Hh). rewrite (Hh ltac:(discriminate)) in *.
  destruct o as [q hp hs cf cpv]. unfold entry_of.
  (destruct (nonempty pv) eqn:Hpv; [|apply nonempty_false in Hpv; subst pv]);
  (destruct (nonempty cpv) eqn:Hcpv; [|apply nonempty_false in Hcpv; subst cpv]);
  subst live; unfold_page; cbn [cb_previewUrl cb_selectedFile] in *;
  rewrite ?Hpv, ?Hcpv; compare_urls; try reflexivity;
  exfalso; subst; cbn in *; congruence.
Qed.

Lemma success_invariant w p o now result :
  page_invariant w ->
  w_compressors w = [p] ->
  page_invariant
    (settle (set_compressors [] w)
       (lift (handle nts (CompressSuccess o now result)))).
Proof.
  intros Hinv Hp. rewrite (success_settles w p o now result Hinv Hp).
  destruct Hinv as [Hlevel Hsel Hpend Hbusy Hhist Hurls Hprev Htoast Hentries Hmsg].
  constructor; easy_goal.
  constructor; [apply entry_downloadable | constructor].
Qed.

Lemma pending_single w i p :
  page_invariant w ->
  nth_error (w_compressors w) i = Some p ->
  w_compressors w = [p] /\ without i (w_compressors w) = []
  /\ st_isCompressing (w_state w) = true /\ well_started p.
Proof.
  intros Hinv Hi. destruct Hinv as [_ _ Hpend Hbusy _ _ _ _ _ _].
  destruct Hbusy as [[Hp _]|(q & Hp & Hb)]; rewrite Hp in *.
  - destruct i; discriminate.
  - destruct i as [|[|i]]; try discriminate. injection Hi as ->.
    inversion Hpend; subst. repeat split; assumption.
Qed.


Lemma error_invariant w p o err :
  page_invariant w ->
  w_compressors w = [p] ->
  page_invariant
    (settle (set_compressors [] w)
       (lift (handle nts (CompressError o err)))).
Proof.
  open_world w. intros Hinv Hp. open_invariant Hinv. cbn in Hp. subst pend.
  destruct Hhist as (_ & _ & Hh). rewrite (Hh ltac:(discriminate)) in *.
  unfold_page. compare_urls.
  constructor; easy_goal.
Qed.

Lemma step_invariant w ev w' :
  page_step nts w ev = Some w' -> page_invariant w -> page_invariant w'.
Proof.
  intros Hstep Hinv. destruct ev; cbn [page_step] in Hstep.
  - destruct (offered _ _ _) eqn:Hoff; [|discriminate].
    injection Hstep as <-. apply upload_invariant; assumption.
  - destruct (offered _ _ _) eqn:Hoff; [|discriminate].
    injection Hstep as <-. apply drop_invariant; assumption.
  - (* MoveSlider *)
    destruct (_ && _) eqn:Hg in Hstep; [|discriminate]. injection Hstep as <-.
    apply andb_prop in Hg. destruct Hg as [Hg Hhi]. apply andb_prop in Hg.
    destruct Hg as [Hg Hlo]. apply Z.leb_le in Hlo, Hhi.
    open_world w. open_invariant Hinv. unfold_page. compare_urls.
    constructor; easy_goal.
  - (* ClickCompress *)
    destruct (_ && _) eqn:Hg in Hstep; [|discriminate]. injection Hstep as <-.
    apply andb_prop in Hg. destruct Hg as [Hg Hidle].
    open_world w. open_invariant Hinv. cbn in Hg, Hidle.
    destruct sel as [f|]; [|discriminate Hg]. destruct busy; [discriminate|].
    destruct Hbusy as [[-> _]|(q & _ & Hq)]; [|discriminate].
    destruct Hhist as (_ & Hh & _). rewrite (Hh ltac:(discriminate)) in *.
    unfold_page. compare_urls.
    constructor; easy_goal.
    + constructor; [|constructor]. cbn. split; [auto|].
      split; [reflexivity|]. split; [reflexivity|]. exists level. auto.
    + right. eexists. split; reflexivity.
  - (* StandInDone *)
    destruct (nth_error _ i) as [[[[|] file] o]|] eqn:Hi; try discriminate.
    destruct (pending_single _ _ _ Hinv Hi) as (Hp & Hw & Hb & Hacc & Hcb & Hs & lvl & Hlvl & Hq).
    rewrite Hw in Hstep.
    destruct (Compressor_succeeds file o lvl) as [r Hr]; try assumption.
    { destruct Hacc as [_ Hsz]. change (2 ^ 40) with 1099511627776. lia. }
    rewrite Hr in Hstep. injection Hstep as <-.
    eapply success_invariant; eassumption.
  - (* LibrarySuccess *)
    destruct (nth_error _ i) as [[[[|] file] o]|] eqn:Hi; try discriminate.
    destruct (pending_single _ _ _ Hinv Hi) as (Hp & Hw & _).
    rewrite Hw in Hstep. injection Hstep as <-.
    eapply success_invariant; eassumption.
  - (* LibraryError *)
    destruct (nth_error _ i) as [[[[|] file] o]|] eqn:Hi; try discriminate.
    destruct (pending_single _ _ _ Hinv Hi) as (Hp & Hw & _).
    rewrite Hw in Hstep. injection Hstep as <-.
    eapply error_invariant; eassumption.
  - (* ClickDownload *)
    destruct (nth_error _ k) as [item|] eqn:Hk; [|discriminate].
    destruct (mintable _ _) eqn:Hm; [|discriminate]. injection Hstep as <-.
    open_world w. open_invariant Hinv. cbn in Hk.
    assert (Hd : downloadable item).
    { eapply Forall_forall; [exact Hentries|]. eapply nth_error_In; eassumption. }
    destruct Hd as [Hname _].
    unfold mintable in Hm. cbn [w_objectURLs] in Hm.
    apply andb_prop in Hm. destruct Hm as [Hne Hfresh].
    unfold handleDownload. rewrite Hname. cbn [negb].
    destruct (nonempty pv) eqn:Hpv; subst live;
      [apply fresh_one in Hfresh|]; unfold_page; compare_urls.
    all: constructor; easy_goal.
  - (* ClickShare *)
    destruct (nth_error _ k) as [item|] eqn:Hk; [|discriminate].
    injection Hstep as <-.
    open_world w. open_invariant Hinv.
    unfold lift, handle, handleShare.
    destruct (share navigator) as [navigator_share|];
      [destruct (canShare navigator) as [navigator_canShare|];
        [destruct (navigator_canShare _);
          [destruct (navigator_share _) as [err|];
            [destruct (String.eqb (err_name err) "AbortError")|]|]|]|];
      unfold_page; compare_urls; constructor; easy_goal.
  - (* ClickClearHistory *)
    open_world w. open_invariant Hinv. cbn in Hstep.
    destruct hist; [discriminate|]. injection Hstep as <-.
    unfold_page; compare_urls; constructor; easy_goal.
  - (* ToastTimerFires *)
    open_world w. open_invariant Hinv. cbn in Hstep.
    destruct timers; [discriminate|]. injection Hstep as <-.
    unfold_page; compare_urls; constructor; easy_goal.
  - (* ClickCloseToast *)
    destruct (present _); [|discriminate]. injection Hstep as <-.
    open_world w. open_invariant Hinv.
    unfold_page; compare_urls; constructor; easy_goal.
  - (* CheckCompressorFires *)
    destruct (w_checkCompressor w); [|discriminate]. injection Hstep as <-.
    open_world w. open_invariant Hinv.
    unfold_page; compare_urls; constructor; easy_goal.
  - (* LibraryLoads *)
    injection Hstep as <-.
    open_world w. open_invariant Hinv.
    unfold_page; constructor; easy_goal.
  - (* OpenPrivacyPolicy *)
    injection Hstep as <-.
    open_world w. open_invariant Hinv.
    unfold_page; compare_urls; constructor; easy_goal.
  - (* ClosePrivacyPolicy *)
    destruct (st_showPrivacyPolicy _); [|discriminate]. injection Hstep as <-.
    open_world w. open_invariant Hinv.
    unfold_page; compare_urls; constructor; easy_goal.
  - (* ProbeTimerFires *)
    destruct (w_probeTimer w); [|discriminate]. injection Hstep as <-.
    open_world w. open_invariant Hinv.
    unfold probeTimeout.
    destruct (childOfBody testAd); [destruct (adBlockDetected testAd)|];
    unfold_page; compare_urls; constructor; easy_goal.
Qed.

Lemma run_invariant evs : forall w w',
  page_run nts evs w = Some w' -> page_invariant w -> page_invariant w'.
Proof.
  induction evs as [|ev evs IH]; intros w w' Hrun Hinv; cbn in Hrun.
  - injection Hrun as <-. assumption.
  - destruct (page_step nts w ev) as [w1|] eqn:Hstep; [|discriminate].
    eapply IH; [eassumption|]. eapply step_invariant; eassumption.
Qed.

Lemma reachable_invariant w : reachable nts w -> page_invariant w.
Proof.
  intros (library & thrown & evs & Hrun).
  eapply run_invariant; [eassumption | apply mount_invariant].
Qed.

End Steps.

(** X5. On every page a visitor can get to, the quality parameter lies in
    the slider's range 10..100 and the Selection, if there is one, passed
    the upload check: its type is one of the five allowed types and its
    size is at most 20 MiB. *)
Theorem selection_stays_acceptable (nts : float -> string) (w : World) :
  reachable nts w ->
  10 <= st_compressionLevel (w_state w) <= 100
  /\ forall f, st_selectedFile (w_state w) = Some f ->
       includes validTypes (file_type f) = true
       /\ 0 <= file_size f <= 20 * 1024 * 1024.
Proof.
  intros Hr. destruct (reachable_invariant nts w Hr) as [Hlevel Hsel _ _ _ _ _ _ _ _].
  split; [exact Hlevel | exact Hsel].
Qed.

Lemma selection_stays_acceptable_witness :
  10 <= st_compressionLevel (w_state (after false visit)) <= 100
  /\ st_selectedFile (w_state (after false visit)) = Some cat_jpg
  /\ includes validTypes (file_type cat_jpg) = true.
Proof.
  assert (Hr : reachable no_toString (after false visit))
    by (exists false, None, visit; vm_compute; reflexivity).
  destruct (selection_stays_acceptable no_toString (after false visit) Hr) as [Hlevel Hsel].
  split; [exact Hlevel|]. split; [reflexivity|].
  exact (proj1 (Hsel cat_jpg eq_refl)).
Defined.

(** X6. On every page a visitor can get to, a compression the stand-in
    was started for does not stall: the stand-in fabricates a result, the
    success callback runs, and the page is idle again with exactly the
    entry of that result, named after the compressed file, in the
    history. *)
Theorem standin_compression_completes
    (nts : float -> string) (w : World) (i : nat) (file : File) (o : Options)
    (now : Z) :
  reachable nts w ->
  nth_error (w_compressors w) i = Some (false, file, o) ->
  exists result w',
    Compressor file o = Succeeded result
    /\ page_step nts w (StandInDone i now) = Some w'
    /\ st_isCompressing (w_state w') = false
    /\ w_compressors w' = []
    /\ st_compressedHistory (w_state w') = [entry_of o now result]
    /\ originalFileName (entry_of o now result) = file_name file
    /\ compressedFileName (entry_of o now result) = newFileName file.
Proof.
  intros Hr Hi. pose proof (reachable_invariant nts w Hr) as Hinv.
  destruct (pending_single w i _ Hinv Hi)
    as (Hp & Hw & Hb & Hacc & Hcb & Hs & lvl & Hlvl & Hq).
  destruct (Compressor_succeeds file o lvl) as [r Hr']; try assumption.
  { destruct Hacc as [_ Hsz]. change (2 ^ 40) with 1099511627776. lia. }
  destruct (Compressor_result file o r Hr') as (_ & Hname & _).
  exists r. eexists. split; [exact Hr'|].
  split; [cbn [page_step]; rewrite Hi, Hr', Hw; reflexivity|].
  destruct Hinv as [_ _ _ _ (_ & _ & Hh) _ _ _ _ _].
  rewrite Hp in Hh. specialize (Hh ltac:(discriminate)).
  open_world w. cbn in Hh. subst hist.
  destruct o as [q hp hs cf cpv]. cbn in Hcb. subst cf.
  unfold entry_of. cbn [cb_selectedFile originalFileName compressedFileName].
  assert (Htr : truthy (Some (newFileName file)) = true).
  { unfold newFileName. destruct (pop _). destruct (join _ _); reflexivity. }
  rewrite Hname, Htr. cbn [interpolate].
  destruct (nonempty pv) eqn:Hpv; destruct (nonempty cpv) eqn:Hcpv;
    unfold_page; cbn [cb_previewUrl cb_selectedFile]; rewrite ?Hpv, ?Hcpv, ?Hname, ?Htr;
    compare_urls; repeat split; reflexivity.
Qed.

Lemma standin_compression_completes_witness :
  exists w',
    page_step no_toString (after false visit) (StandInDone 0 1700000000000) = Some w'
    /\ st_isCompressing (w_state w') = false
    /\ st_compressedHistory (w_state w')
       = [entry_of cat_options 1700000000000 cat_result].
Proof.
  assert (Hr : reachable no_toString (after false visit))
    by (exists false, None, visit; vm_compute; reflexivity).
  destruct (standin_compression_completes no_toString (after false visit) 0 cat_jpg cat_options
              1700000000000 Hr eq_refl)
    as (r & w' & Hc & Hstep & Hidle & _ & Hhist & _).
  assert (Hc' : Compressor cat_jpg cat_options = Succeeded cat_result)
    by (vm_compute; reflexivity).
  rewrite Hc' in Hc. injection Hc as <-.
  exists w'. split; [exact Hstep|]. split; [exact Hidle | exact Hhist].
Defined.

(** X7. On every page a visitor can get to, at most one compression is
    under way, and the busy flag is set exactly while one is: the flag
    never stays set after the callback, and no second compressor is
    constructed before the first has called back. *)
Theorem one_compression_at_a_time (nts : float -> string) (w : World) :
  reachable nts w ->
  (List.length (w_compressors w) <= 1)%nat
  /\ (st_isCompressing (w_state w) = true <-> w_compressors w <> []).
Proof.
  intros Hr. destruct (reachable_invariant nts w Hr) as [_ _ _ Hbusy _ _ _ _ _ _].
  destruct Hbusy as [[-> ->]|(p & -> & ->)]; cbn.
  - split; [lia|]. split; [discriminate | congruence].
  - split; [lia|]. split; [discriminate | reflexivity].
Qed.

Lemma one_compression_at_a_time_witness :
  (List.length (w_compressors (after false visit)) <= 1)%nat
  /\ (st_isCompressing (w_state (after false visit)) = true
      <-> w_compressors (after false visit) <> []).
Proof.
  apply (one_compression_at_a_time no_toString).
  exists false, None, visit. vm_compute. reflexivity.
Defined.

(** X8. On every page a visitor can get to, the history holds at most one
    entry, and none while a file is selected or a compression is under
    way: every upload attempt empties it, and only the success callback
    of the one compression adds to it. *)
Theorem history_holds_one_entry (nts : float -> string) (w : World) :
  reachable nts w ->
  (List.length (st_compressedHistory (w_state w)) <= 1)%nat
  /\ (st_selectedFile (w_state w) <> None -> st_compressedHistory (w_state w) = [])
  /\ (st_isCompressing (w_state w) = true -> st_compressedHistory (w_state w) = []).
Proof.
  intros Hr.
  destruct (reachable_invariant nts w Hr) as [_ _ _ Hbusy (Hlen & Hsel & Hp) _ _ _ _ _].
  split; [exact Hlen|]. split; [exact Hsel|].
  intros Hb. apply Hp. destruct Hbusy as [[_ Hidle]|(p & -> & _)]; [congruence | discriminate].
Qed.

Lemma history_holds_one_entry_witness :
  (List.length (st_compressedHistory (w_state (after false (visit ++ [StandInDone 0 1700000000000])%list)))
   <= 1)%nat.
Proof.
  apply (history_holds_one_entry no_toString).
  exists false, None, (visit ++ [StandInDone 0 1700000000000])%list.
  vm_compute. reflexivity.
Defined.

(** X9. On every page a visitor can get to, the object URLs that are not
    revoked are exactly the preview reference of the Selection: none
    without a Selection (the preview reference is then empty), one with
    it. No handler leaves an object URL behind. *)
Theorem object_urls_follow_selection (nts : float -> string) (w : World) :
  reachable nts w ->
  match st_selectedFile (w_state w) with
  | Some _ =>
      st_previewUrl (w_state w) <> "" /\ w_objectURLs w = [st_previewUrl (w_state w)]
  | None => st_previewUrl (w_state w) = "" /\ w_objectURLs w = []
  end.
Proof.
  intros Hr. destruct (reachable_invariant nts w Hr) as [_ _ _ _ _ Hurls Hprev _ _ _].
  rewrite Hurls, Hprev.
  destruct (st_selectedFile (w_state w)); cbn in *.
  - split; [|reflexivity]. intros He. rewrite He in Hprev. discriminate.
  - split; [|reflexivity]. apply nonempty_false. exact Hprev.
Qed.

Lemma object_urls_follow_selection_witness :
  w_objectURLs (after false visit) = ["blob:cat.jpg"]
  /\ w_objectURLs (after false (visit ++ [StandInDone 0 1700000000000])%list) = [].
Proof.
  split.
  - assert (Hr : reachable no_toString (after false visit))
      by (exists false, None, visit; vm_compute; reflexivity).
    exact (proj2 (object_urls_follow_selection no_toString (after false visit) Hr)).
  - assert (Hr : reachable no_toString (after false (visit ++ [StandInDone 0 1700000000000])%list))
      by (exists false, None, (visit ++ [StandInDone 0 1700000000000])%list;
          vm_compute; reflexivity).
    exact (proj2 (object_urls_follow_selection no_toString _ Hr)).
Defined.

Lemma timers_fire (nts : float -> string) (n : nat) : forall w,
  w_toastTimers w = S n ->
  exists w',
    page_run nts (repeat ToastTimerFires (S n)) w = Some w'
    /\ st_toast (w_state w') = None /\ w_toastTimers w' = O.
Proof.
  induction n as [|n IH]; intros w Hn; open_world w; cbn in Hn; subst timers.
  - eexists. split; [|split].
    + cbn [repeat page_run page_step w_toastTimers]. reflexivity.
    + unfold_page. compare_urls. reflexivity.
    + unfold_page. compare_urls. reflexivity.
  - change (repeat ToastTimerFires (S (S n)))
      with (ToastTimerFires :: repeat ToastTimerFires (S n)).
    cbn [page_run page_step w_toastTimers].
    apply IH. unfold_page. compare_urls. reflexivity.
Qed.

(** X10. On every page a visitor can get to, a notification that is
    showing has a timer pending that will clear it: once the pending
    timers have fired, no notification is left, without the visitor
    closing it. *)
Theorem toast_expires (nts : float -> string) (w : World) :
  reachable nts w ->
  st_toast (w_state w) <> None ->
  exists w',
    page_run nts (repeat ToastTimerFires (w_toastTimers w)) w = Some w'
    /\ st_toast (w_state w') = None.
Proof.
  intros Hr Ht.
  destruct (reachable_invariant nts w Hr) as [_ _ _ _ _ _ _ Htoast _ _].
  specialize (Htoast Ht).
  destruct (w_toastTimers w) as [|n] eqn:Hn; [lia|].
  destruct (timers_fire nts n w Hn) as (w' & Hrun & Hnone & _).
  exists w'. split; assumption.
Qed.

Lemma toast_expires_witness :
  exists w',
    page_run no_toString [ToastTimerFires; ToastTimerFires]
      (after false [PickFile (mkChange [cat_jpg]) sample_url]) = Some w'
    /\ st_toast (w_state w') = None.
Proof.
  apply (toast_expires no_toString (after false [PickFile (mkChange [cat_jpg]) sample_url])).
  - exists false, None, [PickFile (mkChange [cat_jpg]) sample_url].
    vm_compute. reflexivity.
  - vm_compute. discriminate.
Defined.

(** X11. On every page a visitor can get to, the Download button of a
    history card never runs into the "no file data" branch of
    handleDownload: the download link is clicked with the name of the
    compressed file, the success notification is shown, and the object
    URL made for the download is revoked before the handler ends, so the
    live object URLs are the same as before. *)
Theorem history_card_downloads
    (nts : float -> string) (w : World) (k : nat) (item : HistoryEntry)
    (url : Blob -> string) :
  reachable nts w ->
  nth_error (st_compressedHistory (w_state w)) k = Some item ->
  mintable w (url (compressedBlob item)) = true ->
  In (ClickLink (url (compressedBlob item)) (compressedFileName item))
     (snd (handleDownload url (Some (compressedBlob item)) (compressedFileName item)
             (w_state w)))
  /\ exists w',
       page_step nts w (ClickDownload k url) = Some w'
       /\ st_toast (w_state w') = Some (mkToast "Image downloaded!" "success")
       /\ w_objectURLs w' = w_objectURLs w
       /\ st_compressedHistory (w_state w') = st_compressedHistory (w_state w).
Proof.
  intros Hr Hk Hm. pose proof (reachable_invariant nts w Hr) as Hinv.
  assert (Hd : downloadable item).
  { destruct Hinv as [_ _ _ _ _ _ _ _ Hentries _].
    eapply Forall_forall; [exact Hentries|]. eapply nth_error_In; eassumption. }
  destruct Hd as [Hname _].
  split.
  - unfold handleDownload. rewrite Hname. cbn [negb].
    unfold_page. cbn. auto.
  - eexists. split; [cbn [page_step]; rewrite Hk, Hm; reflexivity|].
    open_world w. open_invariant Hinv.
    unfold mintable in Hm. cbn [w_objectURLs] in Hm.
    apply andb_prop in Hm. destruct Hm as [Hne Hfresh].
    unfold handleDownload. rewrite Hname. cbn [negb].
    destruct (nonempty pv) eqn:Hpv; subst live;
      [apply fresh_one in Hfresh|]; unfold_page; compare_urls;
      repeat split; reflexivity.
Qed.

Lemma history_card_downloads_witness :
  exists w',
    page_step no_toString (after false (visit ++ [StandInDone 0 1700000000000])%list)
      (ClickDownload 0 download_url) = Some w'
    /\ st_toast (w_state w') = Some (mkToast "Image downloaded!" "success").
Proof.
  destruct (history_card_downloads no_toString
              (after false (visit ++ [StandInDone 0 1700000000000])%list) 0
              (entry_of cat_options 1700000000000 cat_result) download_url)
    as (_ & w' & Hstep & Htoast & _).
  - exists false, None, (visit ++ [StandInDone 0 1700000000000])%list.
    vm_compute. reflexivity.
  - vm_compute. reflexivity.
  - vm_compute. reflexivity.
  - exists w'. split; assumption.
Defined.

(** X12. The two notifications a handler sets and clears again before it
    returns, "Processing file..." in handleFileChange and
    "Compressing image..." in handleCompress, are never the notification
    of a page a visitor can get to. *)
Theorem transient_toasts_never_shown (nts : float -> string) (w : World) (t : Toast) :
  reachable nts w ->
  st_toast (w_state w) = Some t ->
  message t <> "Processing file..." /\ message t <> "Compressing image...".
Proof.
  intros Hr Ht. destruct (reachable_invariant nts w Hr) as [_ _ _ _ _ _ _ _ _ Hmsg].
  exact (Hmsg t Ht).
Qed.

Lemma transient_toasts_never_shown_witness :
  st_toast (w_state (after false [PickFile (mkChange [cat_jpg]) sample_url]))
  = Some (mkToast "Image uploaded successfully!" "success")
  /\ "Image uploaded successfully!" <> "Processing file...".
Proof.
  split; [reflexivity|].
  apply (transient_toasts_never_shown no_toString
           (after false [PickFile (mkChange [cat_jpg]) sample_url])
           (mkToast "Image uploaded successfully!" "success")).
  - exists false, None, [PickFile (mkChange [cat_jpg]) sample_url].
    vm_compute. reflexivity.
  - reflexivity.
Defined.

Lemma settle_state (w : World) (c : P unit) :
  w_state (settle w c) = snd (fst (c (w_state w))).
Proof.
  assert (Habs : forall t v, w_state (fold_left absorb t v) = w_state v).
  { induction t as [|e t IH]; intros v; [reflexivity|].
    cbn [fold_left]. rewrite IH. destruct e as [[]| | | | | | | |]; reflexivity. }
  unfold settle. destruct (c (w_state w)) as [[u s] t]. cbn [fst snd].
  unfold previewUrlCleanup.
  destruct (String.eqb _ _); [|destruct (nonempty _)];
    cbn [absorb set_objectURLs w_state]; rewrite Habs; reflexivity.
Qed.

Lemma settle_checkCompressor (w : World) (c : P unit) :
  w_checkCompressor (settle w c) = w_checkCompressor w.
Proof.
  assert (Habs : forall t v, w_checkCompressor (fold_left absorb t v) = w_checkCompressor v).
  { induction t as [|e t IH]; intros v; [reflexivity|].
    cbn [fold_left]. rewrite IH. destruct e as [[]| | | | | | | |]; reflexivity. }
  unfold settle. destruct (c (w_state w)) as [[u s] t].
  unfold previewUrlCleanup.
  destruct (String.eqb _ _); [|destruct (nonempty _)];
    cbn [absorb set_objectURLs w_checkCompressor]; rewrite Habs; reflexivity.
Qed.

Lemma settle_probeTimer (w : World) (c : M unit) :
  w_probeTimer (settle w (lift c)) = w_probeTimer w.
Proof.
  assert (Habs : forall t v,
    w_probeTimer (fold_left absorb (map Handler t) v) = w_probeTimer v).
  { induction t as [|e t IH]; intros v; [reflexivity|].
    cbn [fold_left map]. rewrite IH. destruct e; reflexivity. }
  unfold settle, lift. destruct (c (w_state w)) as [[u s] t].
  unfold previewUrlCleanup.
  destruct (String.eqb _ _); [|destruct (nonempty _)];
    cbn [absorb set_objectURLs w_probeTimer]; rewrite Habs; reflexivity.
Qed.

Lemma exec_lift {A} (c : M A) (s : State) : snd (fst (lift c s)) = snd (fst (c s)).
Proof. unfold lift. destruct (c s) as [[a s1] t]. reflexivity. Qed.

(** The two cells only the mount-time detections set. *)
Lemma handle_keeps_detections (nts : float -> string) (ev : Event) (s : State) :
  match ev with CompressorChecked _ => False | _ => True end ->
  st_isRealCompressorLoaded (exec (handle nts ev) s) = st_isRealCompressorLoaded s
  /\ st_showAdBlockMessage (exec (handle nts ev) s) = st_showAdBlockMessage s.
Proof.
  intros Hev. destruct s as [sel pv level busy real toast hist priv ad].
  destruct ev; try contradiction.
  - unfold exec, handle, handleFileChange. cbn [st_previewUrl].
    destruct (hd_error (files e)) as [f|];
      [destruct (includes validTypes (file_type f));
        [destruct (20 * 1024 * 1024 <? file_size f)%Z|]|];
      destruct (nonempty pv); unfold_handlers; split; reflexivity.
  - unfold exec, handle, handleDrop, handleFileChange. cbn [st_previewUrl].
    destruct (hd_error dropped) as [f|]; [|split; reflexivity].
    cbn [files hd_error].
    destruct (includes validTypes (file_type f));
      [destruct (20 * 1024 * 1024 <? file_size f)%Z|];
      destruct (nonempty pv); unfold_handlers; split; reflexivity.
  - split; reflexivity.
  - unfold exec, handle, handleCompress. cbn [st_selectedFile].
    destruct sel; split; reflexivity.
  - unfold exec, handle, success. destruct (nonempty (cb_previewUrl o));
      unfold_handlers; split; reflexivity.
  - split; reflexivity.
  - unfold exec, handle, handleShare.
    destruct fileBlob as [blob|]; [|split; reflexivity].
    destruct (share navigator) as [navigator_share|];
      [destruct (canShare navigator) as [navigator_canShare|];
        [destruct (navigator_canShare _);
          [destruct (navigator_share _) as [err|];
            [destruct (String.eqb (err_name err) "AbortError")|]|]|]|];
      unfold_handlers; split; reflexivity.
  - split; reflexivity.
  - split; reflexivity.
  - split; reflexivity.
Qed.

Lemma step_keeps_detections (nts : float -> string) (w : World) (ev : PageEvent) (w' : World) :
  page_step nts w ev = Some w' ->
  (w_checkCompressor w = false ->
     st_isRealCompressorLoaded (w_state w') = st_isRealCompressorLoaded (w_state w)
     /\ w_checkCompressor w' = false)
  /\ (w_probeTimer w = false ->
        st_showAdBlockMessage (w_state w') = st_showAdBlockMessage (w_state w)
        /\ w_probeTimer w' = false).
Proof.
  assert (Hfire : forall (v : World) (e : Event),
    match e with CompressorChecked _ => False | _ => True end ->
    (st_isRealCompressorLoaded (w_state (settle v (lift (handle nts e))))
       = st_isRealCompressorLoaded (w_state v)
     /\ w_checkCompressor (settle v (lift (handle nts e))) = w_checkCompressor v)
    /\ (st_showAdBlockMessage (w_state (settle v (lift (handle nts e))))
          = st_showAdBlockMessage (w_state v)
        /\ w_probeTimer (settle v (lift (handle nts e))) = w_probeTimer v)).
  { intros v e He. rewrite settle_state, exec_lift, settle_checkCompressor, settle_probeTimer.
    destruct (handle_keeps_detections nts e (w_state v) He) as [H1 H2].
    unfold exec in H1, H2. auto. }
  assert (Hdone : forall v : World,
    Some v = Some w' ->
    (st_isRealCompressorLoaded (w_state v) = st_isRealCompressorLoaded (w_state w)
     /\ w_checkCompressor v = w_checkCompressor w)
    /\ (st_showAdBlockMessage (w_state v) = st_showAdBlockMessage (w_state w)
        /\ w_probeTimer v = w_probeTimer w) ->
    (w_checkCompressor w = false ->
       st_isRealCompressorLoaded (w_state w') = st_isRealCompressorLoaded (w_state w)
       /\ w_checkCompressor w' = false)
    /\ (w_probeTimer w = false ->
          st_showAdBlockMessage (w_state w') = st_showAdBlockMessage (w_state w)
          /\ w_probeTimer w' = false)).
  { intros v [= <-] [[H1 H2] [H3 H4]]. rewrite H1, H2, H3, H4. auto. }
  intros Hstep. destruct ev; cbn [page_step] in Hstep.
  - destruct (offered _ _ _); [|discriminate].
    eapply Hdone; [exact Hstep|]. apply Hfire. exact I.
  - destruct (offered _ _ _); [|discriminate].
    eapply Hdone; [exact Hstep|]. apply Hfire. exact I.
  - destruct (_ && _) in Hstep; [|discriminate].
    eapply Hdone; [exact Hstep|]. apply Hfire. exact I.
  - destruct (_ && _) in Hstep; [|discriminate].
    eapply Hdone; [exact Hstep|]. apply Hfire. exact I.
  - destruct (nth_error _ i) as [[[[|] file] o]|]; try discriminate.
    destruct (Compressor file o).
    + eapply Hdone; [exact Hstep|].
      exact (Hfire (set_compressors _ w) (CompressSuccess o Date_now result) I).
    + eapply Hdone; [exact Hstep|]. repeat split.
    + eapply Hdone; [exact Hstep|]. repeat split.
  - destruct (nth_error _ i) as [[[[|] file] o]|]; try discriminate.
    eapply Hdone; [exact Hstep|].
    exact (Hfire (set_compressors _ w) (CompressSuccess o Date_now result) I).
  - destruct (nth_error _ i) as [[[[|] file] o]|]; try discriminate.
    eapply Hdone; [exact Hstep|].
    exact (Hfire (set_compressors _ w) (CompressError o err) I).
  - destruct (nth_error _ k) as [item|]; [|discriminate].
    destruct (mintable _ _); [|discriminate].
    eapply Hdone; [exact Hstep|].
    open_world w. unfold handleDownload.
    destruct (nonempty (compressedFileName item)); cbn [negb];
      unfold_page; compare_urls; repeat split.
  - destruct (nth_error _ k) as [item|]; [|discriminate].
    eapply Hdone; [exact Hstep|]. apply Hfire. exact I.
  - destruct (st_compressedHistory _); [discriminate|].
    eapply Hdone; [exact Hstep|]. apply Hfire. exact I.
  - destruct (w_toastTimers w) as [|n]; [discriminate|].
    eapply Hdone; [exact Hstep|].
    exact (Hfire (set_toastTimers n w) ToastTimeout I).
  - destruct (present _); [|discriminate].
    eapply Hdone; [exact Hstep|].
    exact (Hfire w ToastTimeout I).
  - destruct (w_checkCompressor w) eqn:Hchk; [|discriminate].
    injection Hstep as <-. split; [discriminate|].
    open_world w. unfold_page. compare_urls. auto.
  - eapply Hdone; [exact Hstep|]. repeat split.
  - eapply Hdone; [exact Hstep|]. apply Hfire. exact I.
  - destruct (st_showPrivacyPolicy _); [|discriminate].
    eapply Hdone; [exact Hstep|]. apply Hfire. exact I.
  - destruct (w_probeTimer w) eqn:Hprobe; [|discriminate].
    injection Hstep as <-. split; [|discriminate].
    open_world w. unfold probeTimeout.
    destruct (childOfBody testAd); [destruct (adBlockDetected testAd)|];
      unfold_page; compare_urls; auto.
Qed.

Lemma run_keeps_detections (nts : float -> string) (evs : list PageEvent) :
  forall w w', page_run nts evs w = Some w' ->
  (w_checkCompressor w = false ->
     st_isRealCompressorLoaded (w_state w') = st_isRealCompressorLoaded (w_state w)
     /\ w_checkCompressor w' = false)
  /\ (w_probeTimer w = false ->
        st_showAdBlockMessage (w_state w') = st_showAdBlockMessage (w_state w)
        /\ w_probeTimer w' = false).
Proof.
  induction evs as [|ev evs IH]; intros w w' Hrun; cbn in Hrun.
  - injection Hrun as <-. auto.
  - destruct (page_step nts w ev) as [w1|] eqn:Hstep; [|discriminate].
    destruct (step_keeps_detections nts w ev w1 Hstep) as [Hc Hp].
    destruct (IH w1 w' Hrun) as [Hc' Hp'].
    split; intros H0.
    + destruct (Hc H0) as [H1 H2]. destruct (Hc' H2) as [H3 H4].
      split; [congruence | assumption].
    + destruct (Hp H0) as [H1 H2]. destruct (Hp' H2) as [H3 H4].
      split; [congruence | assumption].
Qed.

(** X13. The availability of the library is looked at once: the first
    firing of the checkCompressor interval sets isRealCompressorLoaded to
    whether window.Compressor is defined at that moment and clears the
    interval, and nothing that happens afterwards changes the cell, not
    even the library arriving later. *)
Theorem compressor_checked_once
    (nts : float -> string) (w w1 : World) (evs : list PageEvent) (w' : World) :
  page_step nts w CheckCompressorFires = Some w1 ->
  page_run nts evs w1 = Some w' ->
  st_isRealCompressorLoaded (w_state w') = w_windowCompressor w
  /\ w_checkCompressor w' = false.
Proof.
  intros Hstep Hrun.
  assert (H1 : st_isRealCompressorLoaded (w_state w1) = w_windowCompressor w
               /\ w_checkCompressor w1 = false).
  { cbn [page_step] in Hstep. destruct (w_checkCompressor w); [|discriminate].
    injection Hstep as <-. open_world w. unfold_page. compare_urls. auto. }
  destruct H1 as [Hflag Hchk].
  destruct (run_keeps_detections nts evs w1 w' Hrun) as [Hc _].
  destruct (Hc Hchk) as [H2 H3]. split; [congruence | assumption].
Qed.

Lemma compressor_checked_once_witness :
  exists w',
    page_run no_toString
      [CheckCompressorFires; LibraryLoads;
       PickFile (mkChange [cat_jpg]) sample_url; ClickCompress]
      (mount false None) = Some w'
    /\ w_windowCompressor w' = true
    /\ st_isRealCompressorLoaded (w_state w') = false
    /\ w_compressors w' = [(false, cat_jpg, cat_options)].
Proof.
  eexists. split; [vm_compute; reflexivity|]. split; [reflexivity|].
  split; [|reflexivity].
  refine (proj1 (compressor_checked_once no_toString (mount false None) _
                   [LibraryLoads; PickFile (mkChange [cat_jpg]) sample_url; ClickCompress]
                   _ eq_refl _)).
  vm_compute. reflexivity.
Defined.

(** X14. The ad-blocker probe is advisory. When its timeout fires and
    the probe is still a child of the body, the banner cell becomes
    whether the probe was found hidden (no height, no offset parent, or
    display none) and the notice is shown exactly in that case. When the
    probe was taken out of the document, removing it throws, and neither
    the banner cell nor the notification changes. In both cases the
    Selection, the preview, the quality, the busy flag, the history, the
    pending compressors and the object URLs stay as they were, and nothing
    that happens afterwards changes the banner cell. *)
Theorem probe_only_sets_banner
    (nts : float -> string) (w : World) (testAd : ProbeElement) (w1 : World)
    (evs : list PageEvent) (w' : World) :
  page_step nts w (ProbeTimerFires testAd) = Some w1 ->
  page_run nts evs w1 = Some w' ->
  (st_selectedFile (w_state w1) = st_selectedFile (w_state w)
   /\ st_previewUrl (w_state w1) = st_previewUrl (w_state w)
   /\ st_compressionLevel (w_state w1) = st_compressionLevel (w_state w)
   /\ st_isCompressing (w_state w1) = st_isCompressing (w_state w)
   /\ st_compressedHistory (w_state w1) = st_compressedHistory (w_state w)
   /\ w_compressors w1 = w_compressors w
   /\ w_objectURLs w1 = w_objectURLs w)
  /\ (childOfBody testAd = true ->
        st_toast (w_state w1)
        = (if adBlockDetected testAd then Some (mkToast adBlockNotice "info")
           else st_toast (w_state w))
        /\ st_showAdBlockMessage (w_state w') = adBlockDetected testAd)
  /\ (childOfBody testAd = false ->
        st_toast (w_state w1) = st_toast (w_state w)
        /\ st_showAdBlockMessage (w_state w') = st_showAdBlockMessage (w_state w)).
Proof.
  intros Hstep Hrun.
  assert (H1 : (st_selectedFile (w_state w1) = st_selectedFile (w_state w)
   /\ st_previewUrl (w_state w1) = st_previewUrl (w_state w)
   /\ st_compressionLevel (w_state w1) = st_compressionLevel (w_state w)
   /\ st_isCompressing (w_state w1) = st_isCompressing (w_state w)
   /\ st_compressedHistory (w_state w1) = st_compressedHistory (w_state w)
   /\ w_compressors w1 = w_compressors w
   /\ w_objectURLs w1 = w_objectURLs w)
  /\ (childOfBody testAd = true ->
        st_toast (w_state w1)
        = (if adBlockDetected testAd then Some (mkToast adBlockNotice "info")
           else st_toast (w_state w))
        /\ st_showAdBlockMessage (w_state w1) = adBlockDetected testAd)
  /\ (childOfBody testAd = false ->
        st_toast (w_state w1) = st_toast (w_state w)
        /\ st_showAdBlockMessage (w_state w1) = st_showAdBlockMessage (w_state w))
  /\ w_probeTimer w1 = false).
  { cbn [page_step] in Hstep. destruct (w_probeTimer w); [|discriminate].
    injection Hstep as <-. open_world w. unfold probeTimeout.
    destruct (childOfBody testAd); [destruct (adBlockDetected testAd)|];
      unfold_page; compare_urls;
      repeat split; try reflexivity; intros; discriminate. }
  destruct H1 as (Hsame & Hin & Hout & Hprobe).
  destruct (run_keeps_detections nts evs w1 w' Hrun) as [_ Hp].
  destruct (Hp Hprobe) as [H2 _].
  split; [exact Hsame|]. split; intros Hc.
  - destruct (Hin Hc) as [Ht Hb]. split; [exact Ht | congruence].
  - destruct (Hout Hc) as [Ht Hb]. split; [exact Ht | congruence].
Qed.

(** A hidden probe raises the banner; a probe the blocker took out of
    the document leaves it down. *)
Lemma probe_only_sets_banner_witness :
  (exists w1 w',
     page_step no_toString (mount false None) (ProbeTimerFires hidden_probe) = Some w1
     /\ page_run no_toString
          [CheckCompressorFires; PickFile (mkChange [cat_jpg]) sample_url] w1 = Some w'
     /\ st_toast (w_state w1) = Some (mkToast adBlockNotice "info")
     /\ st_showAdBlockMessage (w_state w') = true)
  /\ (exists w1 w',
        page_step no_toString (mount false None) (ProbeTimerFires removed_probe) = Some w1
        /\ page_run no_toString
             [CheckCompressorFires; PickFile (mkChange [cat_jpg]) sample_url] w1 = Some w'
        /\ st_toast (w_state w1) = None
        /\ st_showAdBlockMessage (w_state w') = false).
Proof.
  split.
  - eexists. eexists. split; [vm_compute; reflexivity|].
    split; [vm_compute; reflexivity|].
    refine (proj1 (proj2 (probe_only_sets_banner no_toString (mount false None)
                            hidden_probe _
                            [CheckCompressorFires; PickFile (mkChange [cat_jpg]) sample_url]
                            _ eq_refl eq_refl)) eq_refl).
  - eexists. eexists. split; [vm_compute; reflexivity|].
    split; [vm_compute; reflexivity|].
    refine (proj2 (proj2 (probe_only_sets_banner no_toString (mount false None)
                            removed_probe _
                            [CheckCompressorFires; PickFile (mkChange [cat_jpg]) sample_url]
                            _ eq_refl eq_refl)) eq_refl).
Defined.

(** X15. On every page a visitor can get to, the success callback of the
    library files the result under the file that was compressed (the
    Selection captured when compression started), also when another file
    was picked in the meantime; that newer Selection is dropped with its
    preview, the page is idle and no object URL is left. *)
Theorem library_success_uses_captured_file
    (nts : float -> string) (w : World) (i : nat) (file : File) (o : Options)
    (now : Z) (result : Blob) :
  reachable nts w ->
  nth_error (w_compressors w) i = Some (true, file, o) ->
  exists w',
    page_step nts w (LibrarySuccess i now result) = Some w'
    /\ st_compressedHistory (w_state w') = [entry_of o now result]
    /\ originalFileName (entry_of o now result) = file_name file
    /\ originalSize (entry_of o now result) = file_size file
    /\ st_selectedFile (w_state w') = None
    /\ st_previewUrl (w_state w') = ""
    /\ w_objectURLs w' = []
    /\ st_isCompressing (w_state w') = false
    /\ w_compressors w' = [].
Proof.
  intros Hr Hi. pose proof (reachable_invariant nts w Hr) as Hinv.
  destruct (pending_single w i _ Hinv Hi) as (Hp & Hw & Hb & Hacc & Hcb & _).
  eexists. split; [cbn [page_step]; rewrite Hi, Hw; reflexivity|].
  rewrite (success_settles nts w _ o now result Hinv Hp).
  unfold entry_of. cbn. rewrite Hcb. repeat split; reflexivity.
Qed.

Lemma library_success_uses_captured_file_witness :
  st_selectedFile (w_state (after true impatient_visit)) = Some cat_jpg
  /\ exists w',
       page_step no_toString (after true impatient_visit)
         (LibrarySuccess 0 1700000000650 banner_result) = Some w'
       /\ st_compressedHistory (w_state w')
          = [entry_of banner_options 1700000000650 banner_result]
       /\ st_selectedFile (w_state w') = None.
Proof.
  split; [reflexivity|].
  destruct (library_success_uses_captured_file no_toString (after true impatient_visit)
              0 banner_jpg banner_options 1700000000650 banner_result)
    as (w' & Hstep & Hhist & _ & _ & Hsel & _).
  - exists true, None, impatient_visit. vm_compute. reflexivity.
  - vm_compute. reflexivity.
  - exists w'. split; [exact Hstep|]. split; [exact Hhist | exact Hsel].
Defined.

(** X16. A drop is an upload of the first dropped file alone: the other
    files are ignored. A drop without a file is ignored altogether: the
    page stays exactly as it is, with no notification and no reset. *)
Theorem drop_takes_first_file
    (nts : float -> string) (w : World) (url : File -> string) :
  (forall f rest,
     page_step nts w (DropFiles (f :: rest) url)
     = page_step nts w (PickFile (mkChange [f]) url))
  /\ page_step nts w (DropFiles [] url) = Some w.
Proof.
  split.
  - intros f rest. reflexivity.
  - cbn [page_step hd_error offered].
    change (handle nts (Drop [] url)) with (@ret unit tt).
    rewrite settle_nothing. reflexivity.
Qed.

Lemma error_settles (nts : float -> string) w p o err :
  page_invariant w ->
  w_compressors w = [p] ->
  settle (set_compressors [] w) (lift (handle nts (CompressError o err)))
  = {| w_state :=
         {| st_selectedFile := st_selectedFile (w_state w);
            st_previewUrl := st_previewUrl (w_state w);
            st_compressionLevel := st_compressionLevel (w_state w);
            st_isCompressing := false;
            st_isRealCompressorLoaded := st_isRealCompressorLoaded (w_state w);
            st_toast :=
              Some (mkToast
                ("Compression failed: " ++ err_message err ++ ". Please try again.")
                "error");
            st_compressedHistory := [];
            st_showPrivacyPolicy := st_showPrivacyPolicy (w_state w);
            st_showAdBlockMessage := st_showAdBlockMessage (w_state w) |};
       w_compressors := [];
       w_toastTimers := S (w_toastTimers w);
       w_objectURLs := w_objectURLs w;
       w_windowCompressor := w_windowCompressor w;
       w_checkCompressor := w_checkCompressor w;
       w_probeTimer := w_probeTimer w |}.
Proof.
  open_world w. intros Hinv Hp. open_invariant Hinv. cbn in Hp. subst pend.
  destruct Hhist as (_ & _ & Hh). rewrite (Hh ltac:(discriminate)) in *.
  unfold_page. compare_urls. reflexivity.
Qed.

(** X17. On every page a visitor can get to, the error callback of the
    library leaves the page idle with the failure notification and with
    the Selection, the preview and the quality as they are, so that the
    compress button is enabled again: pressing it constructs one
    compressor on the selected file at the current quality. *)
Theorem library_error_allows_retry
    (nts : float -> string) (w : World) (i : nat) (file : File) (o : Options)
    (err : JSError) :
  reachable nts w ->
  nth_error (w_compressors w) i = Some (true, file, o) ->
  exists w',
    page_step nts w (LibraryError i err) = Some w'
    /\ st_isCompressing (w_state w') = false
    /\ w_compressors w' = []
    /\ st_selectedFile (w_state w') = st_selectedFile (w_state w)
    /\ st_previewUrl (w_state w') = st_previewUrl (w_state w)
    /\ st_compressionLevel (w_state w') = st_compressionLevel (w_state w)
    /\ st_toast (w_state w')
       = Some (mkToast
           ("Compression failed: " ++ err_message err ++ ". Please try again.")
           "error")
    /\ forall f, st_selectedFile (w_state w) = Some f ->
         exists w'',
           page_step nts w' ClickCompress = Some w''
           /\ w_compressors w''
              = [(st_isRealCompressorLoaded (w_state w), f,
                  {| quality := Some (of_integer (st_compressionLevel (w_state w)) / 100)%float;
                     has_progress := true;
                     has_success := true;
                     cb_selectedFile := f;
                     cb_previewUrl := st_previewUrl (w_state w) |})].
Proof.
  intros Hr Hi. pose proof (reachable_invariant nts w Hr) as Hinv.
  destruct (pending_single w i _ Hinv Hi) as (Hp & Hw & _).
  eexists. split; [cbn [page_step]; rewrite Hi, Hw; reflexivity|].
  rewrite (error_settles nts w _ o err Hinv Hp). cbn.
  repeat (split; [reflexivity|]).
  intros f Hf. rewrite Hf. cbn.
  eexists. split; [reflexivity|].
  open_world w. cbn in Hf. subst sel.
  unfold_page. compare_urls. reflexivity.
Qed.

Lemma library_error_allows_retry_witness :
  exists w' w'',
    page_step no_toString (after true library_visit)
      (LibraryError 0 (mkError "Error" "Failed to load the image.")) = Some w'
    /\ st_isCompressing (w_state w') = false
    /\ page_step no_toString w' ClickCompress = Some w''
    /\ w_compressors w'' = [(true, banner_jpg, banner_options)].
Proof.
  destruct (library_error_allows_retry no_toString (after true library_visit) 0
              banner_jpg banner_options (mkError "Error" "Failed to load the image."))
    as (w' & Hstep & Hidle & _ & _ & _ & _ & _ & Hretry).
  - exists true, None, library_visit. vm_compute. reflexivity.
  - vm_compute. reflexivity.
  - destruct (Hretry banner_jpg eq_refl) as (w'' & Hclick & Hpending).
    exists w', w''. split; [exact Hstep|]. split; [exact Hidle|].
    split; [exact Hclick | exact Hpending].
Defined.
